(** * jsmlt: decision trees and random forests

    A shallow embedding of [src/supervised/trees/decision-tree.js] and
    [src/supervised/trees/random-forest.js], and the properties of the
    repository's specification that concern them; then of the accuracy
    metric, of the canvas of the input devices and of the predictions of
    the logistic regression.

    JavaScript numbers are kept behind an interface, [JSNumber], with two
    instances: IEEE-754 binary64 (what the engine computes; executable), and
    the real numbers (the arithmetic the formulas of the documentation are
    written in). Every function is written once, over the interface. *)

From Stdlib Require Import String ZArith List Bool Lia Floats Reals Lra.
From Stdlib Require Import Sorting.Sorted Sorting.Permutation.
Import ListNotations.

Set Implicit Arguments.

(** * Numbers *)

(** The operations on numbers that the two source files use and that IEEE-754
    fixes bit for bit. [of_Z] reads integer literals, array lengths and
    indices; [neg_infinity_ltb x] is [-Infinity < x]; [to_count] is how a
    number is read where a count of elements is expected. *)
Class JSNumber (num : Type) : Type := {
  of_Z : Z -> num;
  half : num;
  add : num -> num -> num;
  sub : num -> num -> num;
  mul : num -> num -> num;
  div : num -> num -> num;
  ltb : num -> num -> bool;
  eqb : num -> num -> bool;
  neg_infinity_ltb : num -> bool;
  Math_sqrt : num -> num;
  Math_floor : num -> num;
  Math_max : num -> num -> num;
  Math_min : num -> num -> num;
  to_count : num -> nat
}.

(** The logarithms, which ECMAScript leaves implementation-approximated. *)
Class JSLog (num : Type) : Type := {
  Math_log : num -> num;
  Math_log2 : num -> num
}.

(** A number that is not [NaN]: it is [===] to itself. *)
Definition number {num : Type} `{JSNumber num} (v : num) : Prop :=
  eqb v v = true.

(** The laws of [===] and [<] that [Set] and sorting rely on: [===] is
    symmetric and transitive, [<] is transitive, of two numbers that are
    not [NaN] and not [===] one is [<] the other, and adding zero to a
    number gives a number [===] to it. *)
Class JSOrder (num : Type) `{JSNumber num} : Prop := {
  number_eq_sym : forall a b : num, eqb a b = eqb b a;
  number_eq_trans :
    forall a b c : num, eqb a b = true -> eqb b c = true -> eqb a c = true;
  number_lt_trans :
    forall a b c : num, ltb a b = true -> ltb b c = true -> ltb a c = true;
  number_lt_total :
    forall a b : num,
      number a -> number b -> ltb a b = false -> ltb b a = false ->
      eqb a b = true;
  number_plus_zero :
    forall a : num, number a -> eqb (add a (of_Z 0)) a = true
}.
Arguments JSOrder num {_}.

(** ** binary64 *)
Module Double.

Local Open Scope float_scope.

Definition from_Z (z : Z) : float :=
  if (z <? 0)%Z
  then PrimFloat.opp (PrimFloat.of_uint63 (Uint63.of_Z (- z)))
  else PrimFloat.of_uint63 (Uint63.of_Z z).

Definition is_neg_zero (x : float) : bool :=
  PrimFloat.eqb x 0 && PrimFloat.ltb (1 / x) 0.

Definition two52 : float := 0x1p52.

(** [Math.floor]: below 2^52 in magnitude, adding and removing 2^52 rounds
    to the nearest integer, which is then corrected downwards. *)
Definition floor (x : float) : float :=
  if PrimFloat.ltb (PrimFloat.abs x) two52 then
    let t := if PrimFloat.ltb x 0 then (x - two52) + two52
             else (x + two52) - two52 in
    if PrimFloat.eqb t x then x
    else if PrimFloat.ltb x t then t - 1 else t
  else x.

Definition max (a b : float) : float :=
  if PrimFloat.is_nan a || PrimFloat.is_nan b then PrimFloat.nan
  else if PrimFloat.ltb a b then b
  else if PrimFloat.ltb b a then a
  else if is_neg_zero a then b else a.

Definition min (a b : float) : float :=
  if PrimFloat.is_nan a || PrimFloat.is_nan b then PrimFloat.nan
  else if PrimFloat.ltb a b then a
  else if PrimFloat.ltb b a then b
  else if is_neg_zero a then a else b.

Definition count (x : float) : nat :=
  match Prim2SF x with
  | S754_finite false m e => Z.to_nat (Z.shiftl (Z.pos m) e)
  | _ => 0%nat
  end.

#[global] Instance number : JSNumber float := {|
  of_Z := from_Z;
  half := 0.5;
  add := PrimFloat.add;
  sub := PrimFloat.sub;
  mul := PrimFloat.mul;
  div := PrimFloat.div;
  ltb := PrimFloat.ltb;
  eqb := PrimFloat.eqb;
  neg_infinity_ltb := PrimFloat.ltb PrimFloat.neg_infinity;
  Math_sqrt := PrimFloat.sqrt;
  Math_floor := floor;
  Math_max := max;
  Math_min := min;
  to_count := count
|}.

(** The real number a finite double stands for. *)
Definition to_R (x : float) : R :=
  match Prim2SF x with
  | S754_finite s m e =>
      ((if s then -1 else 1) * IZR (Z.pos m) * powerRZ 2 e)%R
  | _ => 0%R
  end.

(** A double nearest to a real number in the range of the logarithms of
    doubles (no overflow and, zero apart, nothing subnormal). *)
Definition nearest (y : R) : float :=
  if Req_dec_T y 0 then 0
  else
    let e := (Int_part (ln (Rabs y) / ln 2) - 52)%Z in
    let m := Int_part (Rabs y / powerRZ 2 e + / 2) in
    let a := Z.ldexp (from_Z m) e in
    if Rlt_dec y 0 then PrimFloat.opp a else a.

Definition logarithm (scale : R) (x : float) : float :=
  if PrimFloat.is_nan x || PrimFloat.ltb x 0 then PrimFloat.nan
  else if PrimFloat.eqb x 0 then PrimFloat.neg_infinity
  else if PrimFloat.eqb x PrimFloat.infinity then PrimFloat.infinity
  else nearest (ln (to_R x) / scale).

(** [Math.log] and [Math.log2] as correctly rounded logarithms. An engine
    may be off in the last place, so what is proved of doubles below is
    proved for any [JSLog float]. *)
#[global] Instance logarithms : JSLog float := {|
  Math_log := logarithm 1;
  Math_log2 := logarithm (ln 2)
|}.

End Double.

(** ** Real numbers *)
Module Exact.

Definition less (a b : R) : bool := if Rlt_dec a b then true else false.
Definition same (a b : R) : bool := if Req_dec_T a b then true else false.
Definition floor (x : R) : R := IZR (Int_part x).
Definition count (x : R) : nat := Z.to_nat (Int_part x).

#[global] Instance number : JSNumber R := {|
  of_Z := IZR;
  half := (/ 2)%R;
  add := Rplus;
  sub := Rminus;
  mul := Rmult;
  div := Rdiv;
  ltb := less;
  eqb := same;
  neg_infinity_ltb := fun _ => true;
  Math_sqrt := sqrt;
  Math_floor := floor;
  Math_max := Rmax;
  Math_min := Rmin;
  to_count := count
|}.

#[global] Instance logarithms : JSLog R := {|
  Math_log := ln;
  Math_log2 := fun x => (ln x / ln 2)%R
|}.

End Exact.

(** * Values and arrays *)

(** A class label, as the classifiers handle it: an integer, or [undefined]
    (what reading an array out of range gives). Labels are compared by [===]. *)
Inductive label : Type :=
| Undefined
| Lab (l : Z).

Definition label_eqb (a b : label) : bool :=
  match a, b with
  | Undefined, Undefined => true
  | Lab x, Lab y => Z.eqb x y
  | _, _ => false
  end.

(** A number-valued slot of the code: [null], [NaN] or a number. [NaN] only
    arises from [0 / 0] in the weighted impurity of groups without elements
    and from arithmetic on [undefined]; both are written out where they occur. *)
Inductive jsval (num : Type) : Type :=
| VNull
| VNaN
| VNum (x : num).
Arguments VNull {num}.
Arguments VNaN {num}.

(** What is thrown: [new Error(message)], or the engine's [TypeError]. *)
Inductive exn : Type :=
| Error (message : string)
| TypeError.

Inductive result (A : Type) : Type :=
| Ok (a : A)
| Throw (e : exn)
| OutOfFuel.
Arguments Throw {A}.
Arguments OutOfFuel {A}.

(** How a [Set] tells numbers apart (SameValueZero): as [===] does, except
    that [NaN] is the same value as [NaN]. A number is [NaN] exactly when it
    is not [===] to itself. *)
Definition sameValueZero {num : Type} `{JSNumber num} (a b : num) : bool :=
  eqb a b || (negb (eqb a a) && negb (eqb b b)).

(** The value that a [Set] holds for a number: [+0] for [-0], and the number
    itself otherwise. Adding [+0] to the number gives just that. *)
Definition setValue {num : Type} `{JSNumber num} (v : num) : num :=
  add v (of_Z 0).

(** The state of the random source: the draws still to come. *)
Definition rng : Type := list nat.

Definition draw (r : rng) : nat * rng :=
  match r with
  | [] => (0, [])
  | d :: r' => (d, r')
  end.

Module Arrays.

(** Modelled from the spec: [Arrays.unique] is not among the sources; the
    distinct values of a sequence, each at its first occurrence. *)
Fixpoint unique {A : Type} (eq : A -> A -> bool) (l : list A) : list A :=
  match l with
  | [] => []
  | x :: l' => x :: filter (fun y => negb (eq y x)) (unique eq l')
  end.

(** [unique] on numbers, which are told apart as a [Set] does. *)
Definition uniqueNumbers {num : Type} `{JSNumber num} (l : list num)
  : list num :=
  unique sameValueZero (map setValue l).

(** The number of occurrences of a value. *)
Definition count {A : Type} (eq : A -> A -> bool) (x : A) (l : list A) : Z :=
  Z.of_nat (length (filter (fun y => eq y x) l)).

(** Modelled from the spec: [Arrays.valueCounts] is not among the sources;
    the sequence of (value, count) pairs, in the order the values are first
    encountered. *)
Definition valueCounts {A : Type} (eq : A -> A -> bool) (l : list A)
  : list (A * Z) :=
  map (fun x => (x, count eq x l)) (unique eq l).

(** Modelled from the spec: [Arrays.getShape] is not among the sources; the
    dimensions of a matrix, the second one read off its first row. *)
Definition getShape {A : Type} (X : list (list A)) : list nat :=
  length X :: match X with
              | [] => []
              | x :: _ => [length x]
              end.

(** Entry [j] of every row that has one. *)
Definition column {A : Type} (j : nat) (X : list (list A)) : list A :=
  flat_map (fun x => match nth_error x j with
                     | Some v => [v]
                     | None => []
                     end) X.

(** The columns of a matrix, as many as its first row has entries. *)
Definition columns {A : Type} (X : list (list A)) : list (list A) :=
  map (fun j => column j X) (seq 0 (nth 1 (getShape X) 0)).

(** Modelled from the spec: [Arrays.transpose] is not among the sources;
    row [j] of the result is column [j] of the matrix (which is rectangular,
    by the invariant of the feature matrix). The number of columns is read
    off the first row, [A[0].length]: on a matrix without rows that is a
    [TypeError]. *)
Definition transpose {A : Type} (X : list (list A))
  : result (list (list A)) :=
  match X with
  | [] => Throw TypeError
  | _ :: _ => Ok (columns X)
  end.

(** Modelled from the spec: [Arrays.sum] is not among the sources; the
    element-wise sum of two sequences. *)
Fixpoint sum {num : Type} `{JSNumber num} (a b : list num) : list num :=
  match a, b with
  | x :: a', y :: b' => add x y :: sum a' b'
  | _, _ => []
  end.

(** [Arrays.scale], as [src/arrays/test.js] fixes it on vectors: every
    element multiplied by the factor. *)
Definition scale {num : Type} `{JSNumber num} (a : list num) (c : num)
  : list num :=
  map (fun x => mul x c) a.

(** [Array.prototype.sort] under a comparator, as a stable insertion sort:
    [x] goes before the first element it does not compare greater than. *)
Fixpoint insert {A : Type} (cmp : A -> A -> Z) (x : A) (l : list A) : list A :=
  match l with
  | [] => [x]
  | y :: l' => if (cmp x y <=? 0)%Z then x :: l else y :: insert cmp x l'
  end.

Definition sort {A : Type} (cmp : A -> A -> Z) (l : list A) : list A :=
  fold_right (insert cmp) [] l.

End Arrays.

Module Random.

(** Removes the element at position [i]. *)
Fixpoint remove_at {A : Type} (i : nat) (l : list A) : list A :=
  match i, l with
  | _, [] => []
  | O, _ :: l' => l'
  | S i', x :: l' => x :: remove_at i' l'
  end.

(** [k] draws among the elements not chosen yet. *)
Fixpoint sample_without {A : Type} (k : nat) (input : list A) (r : rng)
  : list A * rng :=
  match k, input with
  | S k', x :: _ =>
      let (d, r1) := draw r in
      let i := d mod length input in
      let (rest, r2) := sample_without k' (remove_at i input) r1 in
      (nth i input x :: rest, r2)
  | _, _ => ([], r)
  end.

(** [k] draws among all the elements. *)
Fixpoint sample_with {A : Type} (k : nat) (input : list A) (r : rng)
  : list A * rng :=
  match k, input with
  | S k', x :: _ =>
      let (d, r1) := draw r in
      let (rest, r2) := sample_with k' input r1 in
      (nth (d mod length input) input x :: rest, r2)
  | _, _ => ([], r)
  end.

(** What the sampler throws when it is asked, without replacement, for more
    elements than there are: an [Error]. The wording of its message is the
    sampler's own; it is not among the sources and no property depends on
    it. *)
Definition oversized : exn :=
  Error "Cannot sample more elements than the input holds without replacement.".

(** Modelled from the spec: [Random.sample] is not among the sources;
    [number] elements of [input] drawn uniformly, with or without
    replacement. Each draw of the random source picks one position among
    the elements that may still be chosen. Without replacement no more
    elements can be drawn than [input] holds; the specification is silent
    on such a request, which the sampler of the repository refuses with an
    [Error] before it draws anything. *)
Definition sample {A : Type} (input : list A) (number : nat)
  (withReplacement : bool) (r : rng) : result (list A) * rng :=
  if negb withReplacement && (length input <? number)%nat then
    (Throw oversized, r)
  else
    let (drawn, r') :=
      if withReplacement then sample_with number input r
      else sample_without number input r in
    (Ok drawn, r').

End Random.

(** * Decision trees *)

Module DecisionTree.
Section WithNumbers.

Context {num : Type} {N : JSNumber num} {L : JSLog num}.

(** Decision tree node: a leaf ([type = 'leaf']) or an internal node
    ([type = 'node']). *)
Inductive DecisionTreeNode : Type :=
| leaf (impurity : jsval num) (prediction : label)
| node (impurity : jsval num) (feature : nat) (featureValue : num)
    (left right : DecisionTreeNode).

(** The [numFeatures] option: ['sqrt'], ['log2'] or a fraction. *)
Inductive NumFeatures : Type :=
| NFsqrt
| NFlog2
| NFfraction (f : num).

(** The members of a [DecisionTree] object. [numFeaturesInt] and [tree] are
    [undefined] until [train] assigns them. *)
Record t : Type := {
  criterion : string;
  numFeatures : NumFeatures;
  maxDepth : Z;
  numFeaturesInt : option (jsval num);
  tree : option DecisionTreeNode
}.

(** [new DecisionTree({criterion, numFeatures, maxDepth})] *)
Definition new (c : string) (nf : NumFeatures) (d : Z) : t :=
  {| criterion := c; numFeatures := nf; maxDepth := d;
     numFeaturesInt := None; tree := None |}.

Record DataSplitGroups : Type := {
  indices : list nat * list nat;
  features : list (list num) * list (list num);
  labels : list label * list label
}.

Record DataSplit : Type := {
  feature : nat;
  featureValue : num;
  groups : DataSplitGroups
}.

Definition len {A : Type} (l : list A) : num := of_Z (Z.of_nat (length l)).

Definition calculateWeightedImpurity (groups : list (list label))
  (impurityCallback : list label -> num) : jsval num :=
  let impurities := map impurityCallback groups in
  let numElements :=
    fold_left (fun n group => (n + Z.of_nat (length group))%Z) groups 0%Z in
  match groups with
  | [] => VNum (of_Z 0)
  | _ :: _ =>
      if (numElements =? 0)%Z then VNaN
      else VNum (fold_left
                   (fun r ag => add r (div (mul (fst ag) (len (snd ag)))
                                           (of_Z numElements)))
                   (combine impurities groups) (of_Z 0))
  end.

Definition frac_of (label0 : label) (labels0 : list label) : num :=
  div (len (filter (fun x => label_eqb x label0) labels0)) (len labels0).

Definition gini (labels0 : list label) : num :=
  let uniqueLabels := Arrays.unique label_eqb labels0 in
  fold_left (fun r label0 =>
               let frac := frac_of label0 labels0 in
               add r (mul frac (sub (of_Z 1) frac)))
            uniqueLabels (of_Z 0).

Definition entropy (labels0 : list label) : num :=
  let uniqueLabels := Arrays.unique label_eqb labels0 in
  fold_left (fun r label0 =>
               let frac := frac_of label0 labels0 in
               sub r (mul frac (Math_log frac)))
            uniqueLabels (of_Z 0).

Definition calculateImpurity (self : t) (groups : list (list label))
  : jsval num :=
  if String.eqb (criterion self) "gini" then
    calculateWeightedImpurity groups gini
  else if String.eqb (criterion self) "entropy" then
    calculateWeightedImpurity groups entropy
  else VNull.

(** [x[fInd] < splitValue], where [x[fInd]] is [undefined] out of range and
    [undefined] is less than nothing. *)
Definition lt_at (x : list num) (fInd : nat) (splitValue : num) : bool :=
  match nth_error x fInd with
  | Some v => ltb v splitValue
  | None => false
  end.

Fixpoint splitSamples_from (i : nat) (XSub : list (list num))
  (ySub : list label) (fInd : nat) (splitValue : num) : DataSplitGroups :=
  match XSub with
  | [] => {| indices := ([], []); features := ([], []); labels := ([], []) |}
  | x :: rest =>
      let g := splitSamples_from (S i) rest ySub fInd splitValue in
      if lt_at x fInd splitValue then
        {| indices := (i :: fst (indices g), snd (indices g));
           features := (x :: fst (features g), snd (features g));
           labels := (nth i ySub Undefined :: fst (labels g), snd (labels g)) |}
      else
        {| indices := (fst (indices g), i :: snd (indices g));
           features := (fst (features g), x :: snd (features g));
           labels := (fst (labels g), nth i ySub Undefined :: snd (labels g)) |}
  end.

Definition splitSamples (XSub : list (list num)) (ySub : list label)
  (fInd : nat) (splitValue : num) : DataSplitGroups :=
  splitSamples_from 0 XSub ySub fInd splitValue.

(** The comparator [(a, b) => (a > b) * 2 - 1]. *)
Definition ascending (a b : num) : Z := if ltb b a then 1%Z else (-1)%Z.

(** The unique, sorted sample values of feature [fInd]. *)
Definition sampleValues (XSubT : list (list num)) (fInd : nat) : list num :=
  Arrays.sort ascending (Arrays.uniqueNumbers (nth fInd XSubT [])).

(** The split values of feature [fInd]: [sampleValues.slice(1)] and
    [sampleValues.slice(0, -1)], summed and scaled by 0.5. *)
Definition splitValues (XSubT : list (list num)) (fInd : nat) : list num :=
  let sampleValues0 := sampleValues XSubT fInd in
  Arrays.scale (Arrays.sum (tl sampleValues0) (removelast sampleValues0)) half.

(** The four [bestSplit...] variables of [findSplit]. They are assigned
    together; [None] is their initial state ([-Infinity] and three times
    [undefined]). *)
Definition BestSplit : Type := option (num * DataSplit).

(** [baseImpurity - impurity], with [null] read as 0. *)
Definition gain_of (baseImpurity impurity : jsval num) : jsval num :=
  match baseImpurity, impurity with
  | VNaN, _ | _, VNaN => VNaN
  | VNull, VNull => VNum (sub (of_Z 0) (of_Z 0))
  | VNull, VNum b => VNum (sub (of_Z 0) b)
  | VNum a, VNull => VNum (sub a (of_Z 0))
  | VNum a, VNum b => VNum (sub a b)
  end.

(** [gain > bestSplitGain] *)
Definition better (gain : jsval num) (best : BestSplit) : bool :=
  match gain, best with
  | VNum g, None => neg_infinity_ltb g
  | VNum g, Some (bestSplitGain, _) => ltb bestSplitGain g
  | _, _ => false
  end.

(** The body of the loop over the split values of one feature. *)
Definition considerSplit (self : t) (XSub : list (list num))
  (ySub : list label) (baseImpurity : jsval num) (fInd : nat)
  (best : BestSplit) (splitValue : num) : BestSplit :=
  let groups0 := splitSamples XSub ySub fInd splitValue in
  let impurity :=
    calculateImpurity self [fst (labels groups0); snd (labels groups0)] in
  let gain := gain_of baseImpurity impurity in
  if better gain best
     && (0 <? length (fst (features groups0)))%nat
     && (0 <? length (snd (features groups0)))%nat
  then match gain with
       | VNum g => Some (g, {| feature := fInd; featureValue := splitValue;
                               groups := groups0 |})
       | _ => best
       end
  else best.

(** How [Random.sample] reads the member [numFeaturesInt] as a count. What
    is not a number of elements is read as none; the options of the
    documentation never lead there. *)
Definition count_of (n : option (jsval num)) : nat :=
  match n with
  | Some (VNum x) => to_count x
  | _ => 0%nat
  end.

(** [findSplit]. The result [None] is the object whose three members are
    [undefined]: no split was found. What [Arrays.transpose] and
    [Random.sample] throw passes through. *)
Definition findSplit (self : t) (XSub : list (list num)) (ySub : list label)
  (baseImpurity : jsval num) (r : rng) : result (option DataSplit) * rng :=
  let shape := Arrays.getShape XSub in
  match Arrays.transpose XSub with
  | Ok XSubT =>
      let possibleIndices :=
        seq 0 (match nth_error shape 1 with Some n => n | None => 1%nat end) in
      match Random.sample possibleIndices (count_of (numFeaturesInt self))
                          false r with
      | (Ok fIndices, r') =>
          let best :=
            fold_left
              (fun best fInd =>
                 fold_left (considerSplit self XSub ySub baseImpurity fInd)
                           (splitValues XSubT fInd) best)
              fIndices None in
          (Ok (option_map snd best), r')
      | (Throw e, r') => (Throw e, r')
      | (OutOfFuel, r') => (OutOfFuel, r')
      end
  | Throw e => (Throw e, r)
  | OutOfFuel => (OutOfFuel, r)
  end.

(** [impurity === 0] *)
Definition is_zero (impurity : jsval num) : bool :=
  match impurity with
  | VNum x => eqb x (of_Z 0)
  | _ => false
  end.

(** [Arrays.valueCounts(ySub).reduce((r, x) => (x[1] > r[1] ? x : r))[0]];
    [reduce] without an initial value throws on an empty array. *)
Definition majority (ySub : list label) : result label :=
  match Arrays.valueCounts label_eqb ySub with
  | [] => Throw TypeError
  | c :: cs =>
      Ok (fst (fold_left (fun r x => if (snd r <? snd x)%Z then x else r) cs c))
  end.

(** [buildTree]. The recursion is on the samples of a group, which a split
    makes strictly fewer; [fuel] bounds its depth. Reading [groups.features]
    of a split that was not found is a [TypeError]; what [findSplit] throws
    passes through. *)
Fixpoint buildTree (fuel : nat) (self : t) (XSub : list (list num))
  (ySub : list label) (depth : Z) (r : rng)
  : result DecisionTreeNode * rng :=
  match fuel with
  | O => (OutOfFuel, r)
  | S fuel' =>
      let impurity := calculateImpurity self [ySub] in
      if is_zero impurity then
        (Ok (leaf impurity (nth 0 ySub Undefined)), r)
      else if (maxDepth self >=? 0)%Z && (depth >=? maxDepth self)%Z then
        match majority ySub with
        | Ok prediction => (Ok (leaf impurity prediction), r)
        | Throw e => (Throw e, r)
        | OutOfFuel => (OutOfFuel, r)
        end
      else
        match findSplit self XSub ySub impurity r with
        | (Throw e, r1) => (Throw e, r1)
        | (OutOfFuel, r1) => (OutOfFuel, r1)
        | (Ok None, r1) => (Throw TypeError, r1)
        | (Ok (Some s), r1) =>
            match buildTree fuel' self (fst (features (groups s)))
                            (fst (labels (groups s))) (depth + 1) r1 with
            | (Ok nleft, r2) =>
                match buildTree fuel' self (snd (features (groups s)))
                                (snd (labels (groups s))) (depth + 1) r2 with
                | (Ok nright, r3) =>
                    (Ok (node impurity (feature s) (featureValue s) nleft nright),
                     r3)
                | (Throw e, r3) => (Throw e, r3)
                | (OutOfFuel, r3) => (OutOfFuel, r3)
                end
            | (Throw e, r2) => (Throw e, r2)
            | (OutOfFuel, r2) => (OutOfFuel, r2)
            end
        end
  end.

(** The value of [numFeaturesInt] that [train] computes from [shape[1]];
    arithmetic on [undefined] gives [NaN]. *)
Definition resolveNumFeatures (nf : NumFeatures) (shape1 : option nat)
  : jsval num :=
  match shape1 with
  | None => VNaN
  | Some n =>
      let n := of_Z (Z.of_nat n) in
      match nf with
      | NFsqrt => VNum (Math_floor (Math_sqrt n))
      | NFlog2 => VNum (Math_floor (Math_log2 n))
      | NFfraction f =>
          VNum (Math_max (of_Z 1) (Math_min n (Math_floor (mul f n))))
      end
  end.

Definition with_numFeaturesInt (self : t) (n : jsval num) : t :=
  {| criterion := criterion self; numFeatures := numFeatures self;
     maxDepth := maxDepth self; numFeaturesInt := Some n;
     tree := tree self |}.

Definition with_tree (self : t) (root : DecisionTreeNode) : t :=
  {| criterion := criterion self; numFeatures := numFeatures self;
     maxDepth := maxDepth self; numFeaturesInt := numFeaturesInt self;
     tree := Some root |}.

(** [train]: the outcome, the object afterwards, and the random source. *)
Definition train (self : t) (X : list (list num)) (y : list label) (r : rng)
  : result unit * t * rng :=
  if negb (length X =? length y)%nat then
    (Throw (Error "Number of data points should match number of labels."),
     self, r)
  else
    let shape := Arrays.getShape X in
    let self1 :=
      with_numFeaturesInt self
        (resolveNumFeatures (numFeatures self) (nth_error shape 1)) in
    match buildTree (S (length X)) self1 X y 0 r with
    | (Ok root, r') => (Ok tt, with_tree self1 root, r')
    | (Throw e, r') => (Throw e, self1, r')
    | (OutOfFuel, r') => (OutOfFuel, self1, r')
    end.

(** The loop of [predictSample], from a given node. *)
Fixpoint walk (n : DecisionTreeNode) (sampleFeatures : list num) : label :=
  match n with
  | leaf _ prediction => prediction
  | node _ feature0 featureValue0 nleft nright =>
      if lt_at sampleFeatures feature0 featureValue0
      then walk nleft sampleFeatures
      else walk nright sampleFeatures
  end.

(** [predictSample]: the walk from [this.tree]; reading [type] of an
    [undefined] tree is a [TypeError]. *)
Definition predictSample (self : t) (sampleFeatures : list num)
  : result label :=
  match tree self with
  | None => Throw TypeError
  | Some root => Ok (walk root sampleFeatures)
  end.

(** [predict]: once the tree is known to be there, [predictSample] on every
    row is the walk from the root. *)
Definition predict (self : t) (X : list (list num)) : result (list label) :=
  match tree self with
  | None =>
      Throw (Error "Model has to be trained in order to make predictions.")
  | Some root => Ok (map (walk root) X)
  end.

End WithNumbers.
End DecisionTree.

(** * Random forests *)

Module RandomForest.
Section WithNumbers.

Context {num : Type} {N : JSNumber num} {L : JSLog num}.

(** The members of a [RandomForest] object; [trees] is [undefined] until
    [train] assigns it. *)
Record t : Type := {
  criterion : string;
  numFeatures : @DecisionTree.NumFeatures num;
  maxDepth : Z;
  numTrees : Z;
  bootstrap : bool;
  trees : option (list (@DecisionTree.t num))
}.

(** [new RandomForest({criterion, numFeatures, maxDepth, numTrees, bootstrap})] *)
Definition new (c : string) (nf : @DecisionTree.NumFeatures num) (d : Z)
  (n : Z) (b : bool) : t :=
  {| criterion := c; numFeatures := nf; maxDepth := d; numTrees := n;
     bootstrap := b; trees := None |}.

Definition with_trees (self : t) (ts : list (@DecisionTree.t num)) : t :=
  {| criterion := criterion self; numFeatures := numFeatures self;
     maxDepth := maxDepth self; numTrees := numTrees self;
     bootstrap := bootstrap self; trees := Some ts |}.

(** The samples one tree is trained on. *)
Definition selectSamples (self : t) (X : list (list num)) (y : list label)
  (r : rng) : result (list (list num) * list label) * rng :=
  if bootstrap self then
    let sampleIndices := seq 0 (length X) in
    match Random.sample sampleIndices (length X) true r with
    | (Ok treeSamples, r') =>
        (Ok (map (fun sampleIndex => nth sampleIndex X []) treeSamples,
             map (fun sampleIndex => nth sampleIndex y Undefined) treeSamples),
         r')
    | (Throw e, r') => (Throw e, r')
    | (OutOfFuel, r') => (OutOfFuel, r')
    end
  else (Ok (X, y), r).

(** The [for] loop of [train], with [iterations] rounds left and [ts] the
    trees pushed so far. A throw, of the sampler or of the training of a
    tree, ends the loop, and [this.trees] stays as it was at that moment. *)
Fixpoint trainLoop (iterations : nat) (self : t) (X : list (list num))
  (y : list label) (ts : list (@DecisionTree.t num)) (r : rng)
  : result unit * list (@DecisionTree.t num) * rng :=
  match iterations with
  | O => (Ok tt, ts, r)
  | S iterations' =>
      let tree0 :=
        DecisionTree.new (criterion self) (numFeatures self) (maxDepth self) in
      match selectSamples self X y r with
      | (Ok (treeX, treeY), r1) =>
          match DecisionTree.train tree0 treeX treeY r1 with
          | (Ok _, tree1, r2) =>
              trainLoop iterations' self X y (ts ++ [tree1]) r2
          | (Throw e, _, r2) => (Throw e, ts, r2)
          | (OutOfFuel, _, r2) => (OutOfFuel, ts, r2)
          end
      | (Throw e, r1) => (Throw e, ts, r1)
      | (OutOfFuel, r1) => (OutOfFuel, ts, r1)
      end
  end.

Definition train (self : t) (X : list (list num)) (y : list label) (r : rng)
  : result unit * t * rng :=
  if negb (length X =? length y)%nat then
    (Throw (Error "Number of data points should match number of labels."),
     self, r)
  else
    let '(outcome, ts, r') :=
      trainLoop (Z.to_nat (numTrees self)) self X y [] r in
    (outcome, with_trees self ts, r').

(** [this.trees.map(x => x.predictSample(sampleFeatures))] *)
Fixpoint predictions (ts : list (@DecisionTree.t num))
  (sampleFeatures : list num) : result (list label) :=
  match ts with
  | [] => Ok []
  | x :: ts' =>
      match DecisionTree.predictSample x sampleFeatures with
      | Ok p =>
          match predictions ts' sampleFeatures with
          | Ok ps => Ok (p :: ps)
          | Throw e => Throw e
          | OutOfFuel => OutOfFuel
          end
      | Throw e => Throw e
      | OutOfFuel => OutOfFuel
      end
  end.

(** The vote: [predictionCounts.reduce((r, x) => (x[1] > r[1] ? x : r),
    [-1, -1])[0]]. *)
Definition vote (ps : list label) : label :=
  fst (fold_left (fun r x => if (snd r <? snd x)%Z then x else r)
                 (Arrays.valueCounts label_eqb ps) (Lab (-1), (-1)%Z)).

Definition predictSampleIn (ts : list (@DecisionTree.t num))
  (sampleFeatures : list num) : result label :=
  match predictions ts sampleFeatures with
  | Ok ps => Ok (vote ps)
  | Throw e => Throw e
  | OutOfFuel => OutOfFuel
  end.

(** [predictSample]; mapping over [undefined] trees is a [TypeError]. *)
Definition predictSample (self : t) (sampleFeatures : list num)
  : result label :=
  match trees self with
  | None => Throw TypeError
  | Some ts => predictSampleIn ts sampleFeatures
  end.

(** [X.map(x => this.predictSample(x))], stopping at the first throw. *)
Fixpoint predictAll (ts : list (@DecisionTree.t num)) (X : list (list num))
  : result (list label) :=
  match X with
  | [] => Ok []
  | x :: X' =>
      match predictSampleIn ts x with
      | Ok p =>
          match predictAll ts X' with
          | Ok ps => Ok (p :: ps)
          | Throw e => Throw e
          | OutOfFuel => OutOfFuel
          end
      | Throw e => Throw e
      | OutOfFuel => OutOfFuel
      end
  end.

Definition predict (self : t) (X : list (list num)) : result (list label) :=
  match trees self with
  | None =>
      Throw (Error "Model has to be trained in order to make predictions.")
  | Some ts => predictAll ts X
  end.

End WithNumbers.
End RandomForest.

(** * Vocabulary of the properties *)

Section Vocabulary.

Context {num : Type} {N : JSNumber num} {L : JSLog num}.

Import DecisionTree.

(** A split of the samples whose two groups are both inhabited. *)
Definition valid_split (XSub : list (list num)) (ySub : list label)
  (s : @DataSplit num) : Prop :=
  groups s = splitSamples XSub ySub (feature s) (featureValue s) /\
  (1 <= length (fst (features (groups s))))%nat /\
  (1 <= length (snd (features (groups s))))%nat.

Definition valid_best (XSub : list (list num)) (ySub : list label)
  (best : @BestSplit num) : Prop :=
  match best with
  | None => True
  | Some (_, s) => valid_split XSub ySub s
  end.


(** A model on which [train] has completed. *)
Definition trained (self : @DecisionTree.t num) : Prop :=
  exists root, tree self = Some root.

End Vocabulary.

(** The two errors that [train] and [predict] throw by themselves. *)
Definition mismatch : exn :=
  Error "Number of data points should match number of labels.".

Definition untrained : exn :=
  Error "Model has to be trained in order to make predictions.".


(** ** Data of the scenarios, in doubles *)

Module Scenario.

Local Open Scope float_scope.

(** A decision tree with the options of the constructor's defaults. *)
Definition defaults : @DecisionTree.t float :=
  DecisionTree.new "gini" (DecisionTree.NFfraction 1) (-1).

Definition X : list (list float) := [[0]; [1]; [2]; [3]].
Definition y : list label := [Lab 0; Lab 0; Lab 1; Lab 1].

(** The tree expected from [X] and [y]. *)
Definition root : @DecisionTree.DecisionTreeNode float :=
  DecisionTree.node (VNum 0.5) 0 1.5
    (DecisionTree.leaf (VNum 0) (Lab 0))
    (DecisionTree.leaf (VNum 0) (Lab 1)).

Definition model : @DecisionTree.t float :=
  DecisionTree.with_tree (DecisionTree.with_numFeaturesInt defaults (VNum 1))
                         root.

Definition split : @DecisionTree.DataSplit float :=
  {| DecisionTree.feature := 0;
     DecisionTree.featureValue := 1.5;
     DecisionTree.groups :=
       {| DecisionTree.indices := ([0; 1], [2; 3])%nat;
          DecisionTree.features := ([[0]; [1]], [[2]; [3]]);
          DecisionTree.labels := ([Lab 0; Lab 0], [Lab 1; Lab 1]) |} |}.

(** One feature, the same for both samples, and two labels. *)
Definition constantX : list (list float) := [[1]; [1]].
Definition mixedY : list label := [Lab 0; Lab 1].

(** Three labels of one class and six of another. *)
Definition thirds : list label :=
  [Lab 0; Lab 0; Lab 0; Lab 1; Lab 1; Lab 1; Lab 1; Lab 1; Lab 1].

End Scenario.

(** * Metrics *)

Module Metrics.
Section WithNumbers.

Context {num : Type} {N : JSNumber num}.

(** [yTrue.reduce((r, a, i) => r + ((a === yPred[i]) ? 1 : 0), 0)], from
    index [i] and with [r] counted so far. *)
Fixpoint countCorrect (i : nat) (yTrue yPred : list label) (r : Z) : Z :=
  match yTrue with
  | [] => r
  | a :: rest =>
      countCorrect (S i) rest yPred
        (r + if label_eqb a (nth i yPred Undefined) then 1 else 0)
  end.

(** [accuracy]: the number of correct predictions, or their proportion;
    the proportion of none among none is [0 / 0]. *)
Definition accuracy (yTrue yPred : list label) (normalize : bool)
  : result (jsval num) :=
  if negb (length yTrue =? length yPred)%nat then
    Throw (Error "Number of true labels must match number of predicted labels.")
  else
    let numCorrect := countCorrect 0 yTrue yPred 0 in
    if normalize then
      match yTrue with
      | [] => Ok VNaN
      | _ :: _ =>
          Ok (VNum (div (of_Z numCorrect) (of_Z (Z.of_nat (length yTrue)))))
      end
    else Ok (VNum (of_Z numCorrect)).

End WithNumbers.
End Metrics.

(** * The canvas *)

Module Canvas.
Section WithNumbers.

Context {num : Type} {N : JSNumber num}.

(** A listener: a function object, known by its identity. *)
Definition callback : Type := nat.

(** The options of a canvas. *)
Record Options : Type := {
  continuousClick : bool;
  continuousClickInterval : num;
  x1 : num;
  y1 : num;
  x2 : num;
  y2 : num
}.

(** The members of a [Canvas] object that the methods below read and write:
    the options, the width and the height of the canvas in the page, and
    the [Map] from event labels to arrays of listeners. *)
Record t : Type := {
  options : Options;
  width : num;
  height : num;
  listeners : string -> option (list callback)
}.

Definition set_listeners (self : t) (label0 : string) (ls : list callback)
  : t :=
  {| options := options self; width := width self; height := height self;
     listeners := fun l => if String.eqb l label0 then Some ls
                           else listeners self l |}.

Definition addListener (self : t) (label0 : string) (cb : callback) : t :=
  match listeners self label0 with
  | None => set_listeners self label0 ([] ++ [cb])
  | Some ls => set_listeners self label0 (ls ++ [cb])
  end.

Definition removeListener (self : t) (label0 : string) (cb : callback) : t :=
  match listeners self label0 with
  | Some ls =>
      set_listeners self label0 (filter (fun x => negb (Nat.eqb x cb)) ls)
  | None => self
  end.

(** [emit]: what it returns, and the listeners it calls, in order, each with
    the arguments of the event. *)
Definition emit {A : Type} (self : t) (label0 : string) (args : A)
  : bool * list (callback * A) :=
  match listeners self label0 with
  | Some ls => (true, map (fun listener => (listener, args)) ls)
  | None => (false, [])
  end.

Definition convertCanvasCoordinatesToFeatures (self : t) (x y : num)
  : num * num :=
  let f1 := div x (width self) in
  let f2 := div y (height self) in
  let o := options self in
  (add (x1 o) (mul f1 (sub (x2 o) (x1 o))),
   add (y1 o) (mul (sub (of_Z 1) f2) (sub (y2 o) (y1 o)))).

Definition convertBoundaryCoordinatesToFeatures (self : t) (bx by0 : num)
  : num * num :=
  let o := options self in
  (add (x1 o) (mul (div (add bx (of_Z 1)) (of_Z 2)) (sub (x2 o) (x1 o))),
   add (y1 o) (mul (div (add by0 (of_Z 1)) (of_Z 2)) (sub (y2 o) (y1 o)))).

Definition convertFeaturesToCanvasCoordinates (self : t) (f1 f2 : num)
  : num * num :=
  let o := options self in
  let x := div (sub f1 (x1 o)) (sub (x2 o) (x1 o)) in
  let y := sub (of_Z 1) (div (sub f2 (y1 o)) (sub (y2 o) (y1 o))) in
  (mul x (width self), mul y (height self)).

End WithNumbers.
End Canvas.

(** * Logistic regression *)

(** The exponential and the unary minus of numbers, which
    [logistic-regression.js] uses besides the operations of [JSNumber]. *)
Class JSExp (num : Type) : Type := {
  Math_exp : num -> num;
  negate : num -> num
}.

#[global] Instance exact_exp : JSExp R := {|
  Math_exp := exp;
  negate := Ropp
|}.



Module BinaryLogisticRegression.
Section WithNumbers.

Context {num : Type} {N : JSNumber num} {E : JSExp num}.

(** [LinAlg.dot] is not among the sources: the methods below are modelled
    for any function in its place. *)
Variable dot : list num -> list num -> num.

Definition sigmoid (x : num) : num :=
  div (of_Z 1) (add (of_Z 1) (Math_exp (negate x))).

(** The body of the loop of [predict], for the data point [x]: its output
    under the option [output]. *)
Definition predictOne (weights : list num) (output : string)
  (weightsMagnitude : num) (x : list num) : num :=
  let augmentedFeatures := of_Z 1 :: x in
  let output0 := dot augmentedFeatures weights in
  if String.eqb output "raw" then sigmoid output0
  else if String.eqb output "normalized" then
    sigmoid (div output0 weightsMagnitude)
  else if ltb half (sigmoid output0) then of_Z 1 else of_Z 0.

(** [predict], on a model whose weights are [weights]. *)
Definition predict (weights : list num) (features : list (list num))
  (output : string) : list num :=
  let weightsMagnitude := Math_sqrt (dot weights weights) in
  map (predictOne weights output weightsMagnitude) features.

End WithNumbers.
End BinaryLogisticRegression.

(** * Vocabulary of the further properties *)

Section TreeVocabulary.

Context {num : Type}.

Import DecisionTree.

(** The number of internal nodes on the longest path from a node down to a
    leaf. *)
Fixpoint height (n : @DecisionTreeNode num) : nat :=
  match n with
  | leaf _ _ => 0
  | node _ _ _ nleft nright => S (Nat.max (height nleft) (height nright))
  end.

(** A label of a list that occurs in it at least as often as any other. *)
Definition most_frequent (p : label) (l : list label) : Prop :=
  In p l /\
  forall q : label,
    (Arrays.count label_eqb q l <= Arrays.count label_eqb p l)%Z.

End TreeVocabulary.

Section SplitVocabulary.

Context {num : Type} {N : JSNumber num} {L : JSLog num}.

Import DecisionTree.



(** The impurity gain of the split at a candidate. *)
Definition gain (self : @DecisionTree.t num) (XSub : list (list num))
  (ySub : list label) (baseImpurity : jsval num) (c : nat * num)
  : jsval num :=
  let g := splitSamples XSub ySub (fst c) (snd c) in
  gain_of baseImpurity
          (calculateImpurity self [fst (labels g); snd (labels g)]).

End SplitVocabulary.


(** Two doubles that are at most [eps] apart. *)
Definition within (eps a b : float) : bool :=
  PrimFloat.leb (PrimFloat.abs (PrimFloat.sub a b)) eps.

(** The number of positions at which two lists of labels agree. *)
Definition agreements (a b : list label) : Z :=
  Z.of_nat (length (filter (fun p => label_eqb (fst p) (snd p))
                           (combine a b))).

(** ** Data of the further examples *)

Module Examples.

(** A tree of at most one level, a tree with a criterion that is not
    supported, and a bootstrapped forest of three trees, in doubles. *)
Definition oneLevel : @DecisionTree.t float :=
  DecisionTree.new "gini" (DecisionTree.NFfraction 1%float) 1.

Definition variance : @DecisionTree.t float :=
  DecisionTree.new "variance" (DecisionTree.NFfraction 1%float) (-1).

Definition forest : @RandomForest.t float :=
  RandomForest.new "gini" (DecisionTree.NFfraction 1%float) (-1) 3 true.

Definition draws : rng := [1; 2; 3; 4; 5; 6; 7; 8; 9; 10; 11; 12; 13; 14; 15].

(** Rows without features; two values of a feature whose sum is beyond the
    largest double (1e308 and 1.7e308); and four doubles next to each other,
    from 1 upwards. *)
Definition bareX : list (list float) := [[]; []].

Definition hugeX : list (list float) :=
  [[0x1.1ccf385ebc8a0p+1023%float]; [0x1.e42d130773b76p+1023%float]].

Definition adjacentX : list (list float) :=
  [[1%float]; [0x1.0000000000001p+0%float]; [0x1.0000000000002p+0%float];
   [0x1.0000000000003p+0%float]].

(** A tree and data over the real numbers. *)
Definition exactTree : @DecisionTree.t R :=
  DecisionTree.new "gini" (DecisionTree.NFfraction 1%R) (-1).

Definition flatTree : @DecisionTree.t R :=
  DecisionTree.new "entropy" DecisionTree.NFsqrt 0.

Definition oneX : list (list R) := [[0%R]; [1%R]].
Definition oneY : list label := [Lab 7; Lab 7].
Definition twoY : list label := [Lab 0; Lab 1].

(** The split of [oneX] with the labels [twoY] between its two samples. *)
Definition middle : @DecisionTree.DataSplit R :=
  {| DecisionTree.feature := 0;
     DecisionTree.featureValue := ((1 + 0) * / 2)%R;
     DecisionTree.groups :=
       {| DecisionTree.indices := ([0%nat], [1%nat]);
          DecisionTree.features := ([[0%R]], [[1%R]]);
          DecisionTree.labels := ([Lab 0], [Lab 1]) |} |}.
Definition sameX : list (list R) := [[1%R]; [1%R]].

(** A canvas of 200 by 100 with the default bounds of the features. *)
Definition canvas : @Canvas.t R :=
  {| Canvas.options :=
       {| Canvas.continuousClick := false;
          Canvas.continuousClickInterval := 50%R;
          Canvas.x1 := (-5 / 2)%R; Canvas.y1 := (-5 / 2)%R;
          Canvas.x2 := (5 / 2)%R; Canvas.y2 := (5 / 2)%R |};
     Canvas.width := 200%R;
     Canvas.height := 100%R;
     Canvas.listeners := fun _ => None |}.

(** The same canvas, in doubles. *)
Definition screen : @Canvas.t float :=
  {| Canvas.options :=
       {| Canvas.continuousClick := false;
          Canvas.continuousClickInterval := 50%float;
          Canvas.x1 := (-2.5)%float; Canvas.y1 := (-2.5)%float;
          Canvas.x2 := 2.5%float; Canvas.y2 := 2.5%float |};
     Canvas.width := 200%float;
     Canvas.height := 100%float;
     Canvas.listeners := fun _ => None |}.

(** The dot product of two vectors of real numbers. *)
Definition dot (a b : list R) : R :=
  fold_left (fun r p => (r + fst p * snd p)%R) (combine a b) 0%R.


End Examples.

(** * Properties that hold in any arithmetic *)

Section Generic.

Context {num : Type} {N : JSNumber num} {L : JSLog num}.

Import DecisionTree.

(** ** [splitSamples] is a partition *)

Lemma splitSamples_from_partition :
  forall (XSub : list (list num)) (i : nat) (ySub : list label) (fInd : nat)
         (splitValue : num),
    let g := splitSamples_from i XSub ySub fInd splitValue in
    (length (fst (features g)) + length (snd (features g)))%nat = length XSub.
Proof.
  induction XSub as [|x rest IH]; intros i ySub fInd splitValue; simpl.
  - reflexivity.
  - specialize (IH (S i) ySub fInd splitValue); simpl in IH.
    destruct (lt_at x fInd splitValue); simpl; lia.
Qed.

Lemma splitSamples_from_lengths :
  forall (XSub : list (list num)) (i : nat) (ySub : list label) (fInd : nat)
         (splitValue : num),
    let g := splitSamples_from i XSub ySub fInd splitValue in
    length (fst (indices g)) = length (fst (features g)) /\
    length (snd (indices g)) = length (snd (features g)) /\
    length (fst (labels g)) = length (fst (features g)) /\
    length (snd (labels g)) = length (snd (features g)).
Proof.
  induction XSub as [|x rest IH]; intros i ySub fInd splitValue; simpl.
  - auto.
  - specialize (IH (S i) ySub fInd splitValue); simpl in IH.
    destruct IH as (H1 & H2 & H3 & H4).
    destruct (lt_at x fInd splitValue); simpl; repeat split; congruence.
Qed.

(** ** The split that [findSplit] keeps *)

Lemma considerSplit_valid :
  forall self XSub ySub baseImpurity fInd best splitValue,
    valid_best XSub ySub best ->
    valid_best XSub ySub
      (considerSplit self XSub ySub baseImpurity fInd best splitValue).
Proof.
  intros self XSub ySub baseImpurity fInd best splitValue Hbest.
  unfold considerSplit.
  destruct (better _ best); simpl; [|exact Hbest].
  destruct (0 <? length (fst _))%nat eqn:Hl; simpl; [|exact Hbest].
  destruct (0 <? length (snd _))%nat eqn:Hr; simpl; [|exact Hbest].
  destruct (gain_of baseImpurity _); try exact Hbest.
  apply Nat.ltb_lt in Hl, Hr.
  simpl. unfold valid_split; simpl. repeat split; lia.
Qed.

Lemma fold_considerSplit_valid :
  forall self XSub ySub baseImpurity fInd values best,
    valid_best XSub ySub best ->
    valid_best XSub ySub
      (fold_left (considerSplit self XSub ySub baseImpurity fInd) values best).
Proof.
  intros self XSub ySub baseImpurity fInd values.
  induction values as [|v values IH]; intros best Hbest; simpl.
  - exact Hbest.
  - apply IH. now apply considerSplit_valid.
Qed.

Lemma fold_features_valid :
  forall self XSub ySub baseImpurity (values : nat -> list num) fIndices best,
    valid_best XSub ySub best ->
    valid_best XSub ySub
      (fold_left
         (fun best fInd =>
            fold_left (considerSplit self XSub ySub baseImpurity fInd)
                      (values fInd) best)
         fIndices best).
Proof.
  intros self XSub ySub baseImpurity values fIndices.
  induction fIndices as [|f fIndices IH]; intros best Hbest; simpl.
  - exact Hbest.
  - apply IH. now apply fold_considerSplit_valid.
Qed.

(** What [Random.sample] returns: a sample, or its refusal of a request
    without replacement for more elements than there are, before any draw. *)
Lemma sample_outcome :
  forall (A : Type) (input : list A) (number : nat) (withReplacement : bool)
         (r : rng),
    match Random.sample input number withReplacement r with
    | (Ok drawn, r') =>
        (withReplacement = true \/ (number <= length input)%nat) /\
        (drawn, r') = (if withReplacement
                       then Random.sample_with number input r
                       else Random.sample_without number input r)
    | (Throw e, r') =>
        withReplacement = false /\ (length input < number)%nat /\
        e = Random.oversized /\ r' = r
    | (OutOfFuel, _) => False
    end.
Proof.
  intros A input number withReplacement r. unfold Random.sample.
  destruct withReplacement; simpl.
  - destruct (Random.sample_with number input r) as [drawn r']. auto.
  - destruct (length input <? number)%nat eqn:E.
    + apply Nat.ltb_lt in E. auto.
    + apply Nat.ltb_ge in E.
      destruct (Random.sample_without number input r) as [drawn r']. auto.
Qed.

(** What [findSplit] returns: the outcome of the search over the sampled
    features, or what [Arrays.transpose] throws on no samples, or what
    [Random.sample] throws when the samples have fewer features than it is
    asked for. *)
Lemma findSplit_outcome :
  forall (self : DecisionTree.t) XSub ySub baseImpurity r,
    match findSplit self XSub ySub baseImpurity r with
    | (Ok found, r') =>
        XSub <> [] /\
        (count_of (numFeaturesInt self) <= nth 1 (Arrays.getShape XSub) 0)%nat /\
        exists fIndices,
          Random.sample (seq 0 (nth 1 (Arrays.getShape XSub) 0))
                        (count_of (numFeaturesInt self)) false r
          = (Ok fIndices, r') /\
          found =
          option_map snd
            (fold_left
               (fun best fInd =>
                  fold_left (considerSplit self XSub ySub baseImpurity fInd)
                            (splitValues (Arrays.columns XSub) fInd) best)
               fIndices None)
    | (Throw e, r') =>
        r' = r /\
        ((XSub = [] /\ e = TypeError) \/
         (XSub <> [] /\ e = Random.oversized /\
          (nth 1 (Arrays.getShape XSub) 0
           < count_of (numFeaturesInt self))%nat))
    | (OutOfFuel, _) => False
    end.
Proof.
  intros self XSub ySub baseImpurity r. unfold findSplit.
  destruct XSub as [|x XSub]; simpl Arrays.transpose; cbv iota.
  - split; [reflexivity|]. left. split; reflexivity.
  - change (nth_error (Arrays.getShape (x :: XSub)) 1) with (Some (length x)).
    change (nth 1 (Arrays.getShape (x :: XSub)) 0%nat) with (length x).
    cbv iota.
    pose proof (sample_outcome (seq 0 (length x))
                  (count_of (numFeaturesInt self)) false r) as Hs.
    destruct (Random.sample (seq 0 (length x)) _ false r)
      as [[fIndices|e|] r1].
    + destruct Hs as [[Hs|Hs] _]; [discriminate|]. rewrite length_seq in Hs.
      split; [discriminate|]. split; [exact Hs|].
      exists fIndices. split; reflexivity.
    + destruct Hs as (_ & Hlt & -> & ->). rewrite length_seq in Hlt.
      split; [reflexivity|]. right.
      split; [discriminate|]. split; [reflexivity | exact Hlt].
    + exact Hs.
Qed.

Lemma findSplit_valid :
  forall self XSub ySub baseImpurity r s r',
    findSplit self XSub ySub baseImpurity r = (Ok (Some s), r') ->
    valid_split XSub ySub s.
Proof.
  intros self XSub ySub baseImpurity r s r' H.
  pose proof (findSplit_outcome self XSub ySub baseImpurity r) as Ho.
  rewrite H in Ho. destruct Ho as (_ & _ & fIndices & _ & Hs).
  match type of Hs with
  | _ = option_map snd ?b =>
      assert (Hv : valid_best XSub ySub b)
        by (apply fold_features_valid
              with (values := splitValues (Arrays.columns XSub)); exact I);
      destruct b as [[g s0]|]; simpl in Hs; [|discriminate]
  end.
  injection Hs as ->. exact Hv.
Qed.

Lemma valid_split_smaller :
  forall XSub ySub s,
    valid_split XSub ySub s ->
    (length (fst (features (groups s))) < length XSub)%nat /\
    (length (snd (features (groups s))) < length XSub)%nat.
Proof.
  intros XSub ySub s (Hg & Hl & Hr).
  pose proof (splitSamples_from_partition XSub 0 ySub (feature s)
                (featureValue s)) as Hp.
  simpl in Hp. fold (splitSamples XSub ySub (feature s) (featureValue s)) in Hp.
  rewrite <- Hg in Hp. lia.
Qed.

(** ** [buildTree] returns: the fuel given by [train] is never used up *)

Lemma majority_fuel : forall ySub, majority ySub <> OutOfFuel.
Proof.
  intros ySub. unfold majority.
  destruct (Arrays.valueCounts label_eqb ySub); discriminate.
Qed.

Lemma buildTree_fuel :
  forall fuel self XSub ySub depth r,
    (length XSub < fuel)%nat ->
    fst (buildTree fuel self XSub ySub depth r) <> OutOfFuel.
Proof.
  induction fuel as [|fuel IH]; intros self XSub ySub depth r Hlen; [lia|].
  simpl.
  destruct (is_zero _); [discriminate|].
  destruct (_ && _).
  - pose proof (majority_fuel ySub) as Hm.
    destruct (majority ySub); simpl; congruence.
  - pose proof (findSplit_outcome self XSub ySub
                  (calculateImpurity self [ySub]) r) as Ho.
    destruct (findSplit self XSub ySub _ r) as [[[s|]|e|] r1] eqn:Hs;
      try discriminate; [|contradiction].
    clear Ho.
    apply findSplit_valid in Hs. apply valid_split_smaller in Hs.
    destruct Hs as [Hl Hr].
    pose proof (IH self (fst (features (groups s))) (fst (labels (groups s)))
                  (depth + 1)%Z r1 ltac:(lia)) as H1.
    destruct (buildTree fuel self (fst (features (groups s))) _ _ r1)
      as [[nleft| e |] r2]; simpl in *; try congruence.
    pose proof (IH self (snd (features (groups s))) (snd (labels (groups s)))
                  (depth + 1)%Z r2 ltac:(lia)) as H2.
    destruct (buildTree fuel self (snd (features (groups s))) _ _ r2)
      as [[nright| e |] r3]; simpl in *; congruence.
Qed.

Lemma train_fuel :
  forall (self : DecisionTree.t) X y r,
    fst (fst (DecisionTree.train self X y r)) <> OutOfFuel.
Proof.
  intros self X y r. unfold DecisionTree.train.
  destruct (negb _); [discriminate|].
  match goal with
  | |- context [buildTree ?f ?s ?a ?b ?d ?r0] =>
      pose proof (@buildTree_fuel f s a b d r0 ltac:(lia)) as H;
      destruct (buildTree f s a b d r0) as [[root| e |] r']
  end; simpl in *; congruence.
Qed.

(** C4: whenever [findSplit] returns a split, both of its groups hold at
    least one sample: the rows, the labels and the indices of the left group,
    and those of the right group. *)
Theorem findSplit_groups_nonempty :
  forall (self : DecisionTree.t) XSub ySub baseImpurity r s r',
    findSplit self XSub ySub baseImpurity r = (Ok (Some s), r') ->
    (1 <= length (fst (features (groups s))))%nat /\
    (1 <= length (snd (features (groups s))))%nat /\
    (1 <= length (fst (labels (groups s))))%nat /\
    (1 <= length (snd (labels (groups s))))%nat /\
    (1 <= length (fst (indices (groups s))))%nat /\
    (1 <= length (snd (indices (groups s))))%nat.
Proof.
  intros self XSub ySub baseImpurity r s r' H.
  apply findSplit_valid in H. destruct H as (Hg & Hl & Hr).
  pose proof (splitSamples_from_lengths XSub 0 ySub (feature s)
                (featureValue s)) as Hlen.
  simpl in Hlen. fold (splitSamples XSub ySub (feature s) (featureValue s)) in Hlen.
  rewrite <- Hg in Hlen. destruct Hlen as (H1 & H2 & H3 & H4).
  repeat split; lia.
Qed.

(** ** A node without a split *)

Lemma insert_length :
  forall (A : Type) (cmp : A -> A -> Z) (x : A) (l : list A),
    length (Arrays.insert cmp x l) = S (length l).
Proof.
  intros A cmp x l. induction l as [|y l IH]; simpl.
  - reflexivity.
  - destruct (cmp x y <=? 0)%Z; simpl; lia.
Qed.

Lemma sort_length :
  forall (A : Type) (cmp : A -> A -> Z) (l : list A),
    length (Arrays.sort cmp l) = length l.
Proof.
  intros A cmp l. induction l as [|x l IH]; simpl.
  - reflexivity.
  - unfold Arrays.sort in *. rewrite insert_length. simpl. now rewrite IH.
Qed.

Lemma sum_length :
  forall (a b : list num),
    length (Arrays.sum a b) = Nat.min (length a) (length b).
Proof.
  induction a as [|x a IH]; intros [|y b]; simpl; auto.
Qed.

Lemma tl_length : forall (A : Type) (l : list A), length (tl l) = (length l - 1)%nat.
Proof. intros A [|x l]; simpl; lia. Qed.

Lemma removelast_length :
  forall (A : Type) (l : list A), length (removelast l) = (length l - 1)%nat.
Proof.
  intros A l. rewrite removelast_firstn_len, length_firstn. lia.
Qed.

Lemma splitValues_length :
  forall (XSubT : list (list num)) (fInd : nat),
    length (splitValues XSubT fInd) =
    (length (Arrays.uniqueNumbers (nth fInd XSubT [])) - 1)%nat.
Proof.
  intros XSubT fInd. unfold splitValues, Arrays.scale.
  rewrite length_map, sum_length, tl_length, removelast_length.
  unfold sampleValues. rewrite sort_length. lia.
Qed.

Lemma splitValues_constant :
  forall (XSubT : list (list num)) (fInd : nat),
    (length (Arrays.uniqueNumbers (nth fInd XSubT [])) <= 1)%nat ->
    splitValues XSubT fInd = [].
Proof.
  intros XSubT fInd H. apply length_zero_iff_nil.
  rewrite splitValues_length. lia.
Qed.

Lemma fold_features_none :
  forall (self : DecisionTree.t) XSub ySub baseImpurity
         (values : nat -> list num) fIndices,
    (forall fInd, values fInd = []) ->
    fold_left
      (fun best fInd =>
         fold_left (considerSplit self XSub ySub baseImpurity fInd)
                   (values fInd) best)
      fIndices None = None.
Proof.
  intros self XSub ySub baseImpurity values fIndices Hv.
  induction fIndices as [|f fIndices IH]; simpl.
  - reflexivity.
  - rewrite Hv. simpl. exact IH.
Qed.

Lemma findSplit_constant_features :
  forall (self : DecisionTree.t) XSub ySub baseImpurity r found r',
    (forall fInd,
        (length (Arrays.uniqueNumbers
                   (nth fInd (Arrays.columns XSub) [])) <= 1)%nat) ->
    findSplit self XSub ySub baseImpurity r = (Ok found, r') ->
    found = None.
Proof.
  intros self XSub ySub baseImpurity r found r' H Hf.
  pose proof (findSplit_outcome self XSub ySub baseImpurity r) as Ho.
  rewrite Hf in Ho. destruct Ho as (_ & _ & fIndices & _ & ->).
  rewrite fold_features_none; [reflexivity|].
  intros fInd. now apply splitValues_constant.
Qed.

(** C1, as the code has it: a node whose labels are impure and whose depth
    is below the maximum, for which [findSplit] finds no split, is not made
    a leaf predicting the majority label; [buildTree] throws a [TypeError]
    there. *)
Theorem buildTree_no_split_throws :
  forall fuel (self : DecisionTree.t) XSub ySub depth r,
    is_zero (calculateImpurity self [ySub]) = false ->
    ((maxDepth self >=? 0) && (depth >=? maxDepth self))%Z = false ->
    fst (findSplit self XSub ySub (calculateImpurity self [ySub]) r)
    = Ok None ->
    fst (buildTree (S fuel) self XSub ySub depth r) = Throw TypeError.
Proof.
  intros fuel self XSub ySub depth r Himp Hdepth Hs. simpl.
  rewrite Himp, Hdepth.
  destruct (findSplit self XSub ySub _ r) as [[[s|]|e|] r1]; simpl in Hs;
    try discriminate.
  reflexivity.
Qed.

(** The example of C1: every feature has one distinct value among the
    samples of the node, and the samples have the features that the sampler
    is asked for. *)
Lemma buildTree_constant_features_throws :
  forall fuel (self : DecisionTree.t) XSub ySub depth r,
    is_zero (calculateImpurity self [ySub]) = false ->
    ((maxDepth self >=? 0) && (depth >=? maxDepth self))%Z = false ->
    (count_of (numFeaturesInt self) <= nth 1 (Arrays.getShape XSub) 0)%nat ->
    (forall fInd,
        (length (Arrays.uniqueNumbers
                   (nth fInd (Arrays.columns XSub) [])) <= 1)%nat) ->
    fst (buildTree (S fuel) self XSub ySub depth r) = Throw TypeError.
Proof.
  intros fuel self XSub ySub depth r Himp Hdepth Hcount Hconst. simpl.
  rewrite Himp, Hdepth.
  pose proof (findSplit_outcome self XSub ySub
                (calculateImpurity self [ySub]) r) as Ho.
  destruct (findSplit self XSub ySub _ r) as [[found|e|] r1] eqn:Hs.
  - rewrite (findSplit_constant_features _ _ _ _ _ Hconst Hs). reflexivity.
  - destruct Ho as [_ [[_ ->]|(_ & _ & Hlt)]]; [reflexivity | lia].
  - contradiction.
Qed.

(** ** The thresholds of a feature, one by one *)




End Generic.

(** * Models, trained and untrained *)

Section Models.

Context {num : Type} {N : JSNumber num} {L : JSLog num}.

Lemma train_ok_tree :
  forall (self self' : @DecisionTree.t num) X y r r',
    DecisionTree.train self X y r = (Ok tt, self', r') ->
    trained self'.
Proof.
  intros self self' X y r r' H. unfold DecisionTree.train in H.
  destruct (negb _); [discriminate|].
  destruct (DecisionTree.buildTree _ _ X y 0 r) as [[root| e |] r1];
    try discriminate.
  injection H as <- _. now exists root.
Qed.

Lemma label_eqb_refl : forall p, label_eqb p p = true.
Proof. intros [|l]; simpl; [reflexivity | apply Z.eqb_refl]. Qed.

Lemma vote_single : forall p, RandomForest.vote [p] = p.
Proof.
  intros p. unfold RandomForest.vote, Arrays.valueCounts, Arrays.count.
  simpl. rewrite label_eqb_refl. reflexivity.
Qed.

Lemma predictAll_single :
  forall (self : @DecisionTree.t num) root X,
    DecisionTree.tree self = Some root ->
    RandomForest.predictAll [self] X = Ok (map (DecisionTree.walk root) X).
Proof.
  intros self root X Hroot. induction X as [|x X IH]; simpl.
  - reflexivity.
  - unfold RandomForest.predictSampleIn; simpl.
    unfold DecisionTree.predictSample. rewrite Hroot.
    rewrite vote_single. rewrite IH. reflexivity.
Qed.

(** ** Every tree of a forest is trained *)

Lemma trainLoop_trained :
  forall iterations (self : @RandomForest.t num) X y ts r outcome ts' r',
    Forall trained ts ->
    RandomForest.trainLoop iterations self X y ts r = (outcome, ts', r') ->
    Forall trained ts'.
Proof.
  induction iterations as [|n IH]; intros self X y ts r outcome ts' r' Hts H;
    simpl in H.
  - injection H as _ <- _. exact Hts.
  - destruct (RandomForest.selectSamples self X y r)
      as [[[treeX treeY]| e |] r1];
      [|injection H as _ <- _; exact Hts | injection H as _ <- _; exact Hts].
    destruct (DecisionTree.train _ treeX treeY r1) as [[[[]| e |] tree1] r2] eqn:Ht.
    + apply train_ok_tree in Ht.
      eapply IH; [|exact H]. apply Forall_app. split; [exact Hts|].
      constructor; [exact Ht | constructor].
    + injection H as _ <- _. exact Hts.
    + injection H as _ <- _. exact Hts.
Qed.

Lemma predictions_trained :
  forall (ts : list (@DecisionTree.t num)) x,
    Forall trained ts -> exists ps, RandomForest.predictions ts x = Ok ps.
Proof.
  intros ts x Hts. induction Hts as [|self ts [root Hroot] _ [ps IH]]; simpl.
  - now exists [].
  - unfold DecisionTree.predictSample. rewrite Hroot, IH. eauto.
Qed.

Lemma predictAll_trained :
  forall (ts : list (@DecisionTree.t num)) X,
    Forall trained ts -> exists ps, RandomForest.predictAll ts X = Ok ps.
Proof.
  intros ts X Hts. induction X as [|x X [ps IH]]; simpl.
  - now exists [].
  - unfold RandomForest.predictSampleIn.
    destruct (predictions_trained x Hts) as [qs ->]. rewrite IH. eauto.
Qed.

(** C8: [predict] on a decision tree or on a random forest that was never
    trained throws the error for an untrained model; after a [train] that
    completed, [predict] returns predictions. *)
Theorem predict_needs_training :
  forall (tree0 : @DecisionTree.t num) (forest0 : @RandomForest.t num)
         (Xq : list (list num)),
    (DecisionTree.tree tree0 = None ->
     DecisionTree.predict tree0 Xq = Throw untrained) /\
    (RandomForest.trees forest0 = None ->
     RandomForest.predict forest0 Xq = Throw untrained) /\
    (forall X y r tree1 r',
        DecisionTree.train tree0 X y r = (Ok tt, tree1, r') ->
        exists ps, DecisionTree.predict tree1 Xq = Ok ps) /\
    (forall X y r forest1 r',
        RandomForest.train forest0 X y r = (Ok tt, forest1, r') ->
        exists ps, RandomForest.predict forest1 Xq = Ok ps).
Proof.
  intros tree0 forest0 Xq. repeat split.
  - intros H. unfold DecisionTree.predict. now rewrite H.
  - intros H. unfold RandomForest.predict. now rewrite H.
  - intros X y r tree1 r' H. apply train_ok_tree in H. destruct H as [root H].
    unfold DecisionTree.predict. rewrite H. eauto.
  - intros X y r forest1 r' H. unfold RandomForest.train in H.
    destruct (negb _); [discriminate|].
    destruct (RandomForest.trainLoop _ forest0 X y [] r) as [[outcome ts] r1] eqn:Hl.
    injection H as _ <- _.
    apply trainLoop_trained in Hl; [|constructor].
    unfold RandomForest.predict; simpl. now apply predictAll_trained.
Qed.

(** C10: when the numbers of rows and of labels differ, [train] of a
    decision tree and [train] of a random forest throw and leave the model
    and the random source as they were; the predictions of the model are
    those it gave before. *)
Theorem train_mismatch_keeps_model :
  forall (X : list (list num)) (y : list label),
    length X <> length y ->
    (forall (self : @DecisionTree.t num) r,
        DecisionTree.train self X y r = (Throw mismatch, self, r)) /\
    (forall (self : @RandomForest.t num) r,
        RandomForest.train self X y r = (Throw mismatch, self, r)) /\
    (forall (self : @DecisionTree.t num) r Xq,
        DecisionTree.predict (snd (fst (DecisionTree.train self X y r))) Xq =
        DecisionTree.predict self Xq) /\
    (forall (self : @RandomForest.t num) r Xq,
        RandomForest.predict (snd (fst (RandomForest.train self X y r))) Xq =
        RandomForest.predict self Xq).
Proof.
  intros X y Hlen.
  assert (Hneq : negb (length X =? length y)%nat = true)
    by (apply negb_true_iff, Nat.eqb_neq; exact Hlen).
  assert (HD : forall (self : @DecisionTree.t num) r,
             DecisionTree.train self X y r = (Throw mismatch, self, r))
    by (intros; unfold DecisionTree.train; now rewrite Hneq).
  assert (HR : forall (self : @RandomForest.t num) r,
             RandomForest.train self X y r = (Throw mismatch, self, r))
    by (intros; unfold RandomForest.train; now rewrite Hneq).
  repeat split; intros; try apply HD; try apply HR.
  - now rewrite HD.
  - now rewrite HR.
Qed.

(** C7: a random forest of one tree, without bootstrapping, and a decision
    tree with the same criterion, feature count and maximal depth, trained
    on the same data from the same state of the random source: both
    trainings end the same way and leave the random source in the same
    state, and when they complete the two models predict the same label for
    every sample. *)
Theorem forest_of_one_tree :
  forall (c : string) (nf : @DecisionTree.NumFeatures num) (d : Z)
         (X : list (list num)) (y : list label) (r : rng),
    let forest := RandomForest.train (RandomForest.new c nf d 1 false) X y r in
    let single := DecisionTree.train (DecisionTree.new c nf d) X y r in
    fst (fst forest) = fst (fst single) /\
    snd forest = snd single /\
    (fst (fst single) = Ok tt ->
     (forall x,
         RandomForest.predictSample (snd (fst forest)) x =
         DecisionTree.predictSample (snd (fst single)) x) /\
     (forall Xq,
         RandomForest.predict (snd (fst forest)) Xq =
         DecisionTree.predict (snd (fst single)) Xq)).
Proof.
  intros c nf d X y r forest single. subst forest single.
  unfold RandomForest.train.
  destruct (negb (length X =? length y)%nat) eqn:Hlen.
  - unfold DecisionTree.train. rewrite Hlen. simpl.
    repeat split; discriminate.
  - simpl. unfold RandomForest.selectSamples. simpl.
    destruct (DecisionTree.train (DecisionTree.new c nf d) X y r)
      as [[[[]| e |] tree1] r1] eqn:Ht; simpl.
    + repeat split; try reflexivity.
      * intros x. apply train_ok_tree in Ht. destruct Ht as [root Hroot].
        unfold RandomForest.predictSample, RandomForest.predictSampleIn; simpl.
        unfold DecisionTree.predictSample. rewrite Hroot.
        now rewrite vote_single.
      * intros Xq. apply train_ok_tree in Ht. destruct Ht as [root Hroot].
        unfold RandomForest.predict; simpl.
        rewrite (predictAll_single _ Xq Hroot).
        unfold DecisionTree.predict. now rewrite Hroot.
    + repeat split; discriminate.
    + repeat split; discriminate.
Qed.

End Models.

(** * The scenarios, computed in doubles *)

Section Doubles.

Local Open Scope float_scope.

(** C3: with criterion gini and no maximal depth, training on
    [[0],[1],[2],[3]] with labels [0,0,1,1] gives a root that splits on
    feature 0 at 1.5, with a pure leaf predicting 0 on the left and one
    predicting 1 on the right, and the trained tree predicts [0, 1] for
    [[0.5],[2.5]]. This holds whatever the random source draws and whatever
    the logarithms are. *)
Theorem scenario_train_predict :
  forall (L : JSLog float) (r : rng),
    DecisionTree.train Scenario.defaults Scenario.X Scenario.y r =
      (Ok tt, Scenario.model, snd (draw r)) /\
    DecisionTree.tree Scenario.model = Some Scenario.root /\
    DecisionTree.predict Scenario.model [[0.5]; [2.5]] = Ok [Lab 0; Lab 1].
Proof.
  intros L r. split; [|split].
  - destruct r as [|d r]; vm_compute; reflexivity.
  - reflexivity.
  - vm_compute. reflexivity.
Qed.

(** The failing input of C1 through [train]: two samples with the same
    single feature and different labels. *)
Example train_constant_feature_throws :
  forall (L : JSLog float) (r : rng),
    fst (fst (DecisionTree.train Scenario.defaults Scenario.constantX
                Scenario.mixedY r)) = Throw TypeError.
Proof.
  intros L r. destruct r as [|d r]; vm_compute; reflexivity.
Qed.

Lemma buildTree_no_split_witness :
  DecisionTree.is_zero
    (DecisionTree.calculateImpurity Scenario.defaults [Scenario.mixedY]) = false /\
  fst (DecisionTree.findSplit
         (DecisionTree.with_numFeaturesInt Scenario.defaults (VNum 1))
         Scenario.constantX Scenario.mixedY (VNum 0.5) []) = Ok None /\
  fst (DecisionTree.buildTree 3
         (DecisionTree.with_numFeaturesInt Scenario.defaults (VNum 1))
         Scenario.constantX Scenario.mixedY 0 []) = Throw TypeError.
Proof.
  split; [vm_compute; reflexivity|].
  split; [vm_compute; reflexivity|].
  apply (@buildTree_no_split_throws float _ _ 2
           (DecisionTree.with_numFeaturesInt Scenario.defaults (VNum 1))
           Scenario.constantX Scenario.mixedY 0%Z []).
  - vm_compute; reflexivity.
  - vm_compute; reflexivity.
  - vm_compute; reflexivity.
Defined.

Lemma findSplit_groups_witness :
  DecisionTree.findSplit
    (DecisionTree.with_numFeaturesInt Scenario.defaults (VNum 1))
    Scenario.X Scenario.y (VNum 0.5) [] = (Ok (Some Scenario.split), []) /\
  (1 <= length (fst (DecisionTree.features (DecisionTree.groups Scenario.split))))%nat /\
  (1 <= length (snd (DecisionTree.features (DecisionTree.groups Scenario.split))))%nat.
Proof.
  assert (H : DecisionTree.findSplit
                (DecisionTree.with_numFeaturesInt Scenario.defaults (VNum 1))
                Scenario.X Scenario.y (VNum 0.5) []
              = (Ok (Some Scenario.split), []))
    by (vm_compute; reflexivity).
  split; [exact H|].
  destruct (findSplit_groups_nonempty _ _ _ _ _ H) as (H1 & H2 & _).
  split; [exact H1 | exact H2].
Defined.

Lemma predict_needs_training_witness :
  DecisionTree.tree Scenario.defaults = None /\
  DecisionTree.predict Scenario.defaults [[0.5]; [2.5]] = Throw untrained.
Proof.
  split; [reflexivity|].
  destruct (predict_needs_training Scenario.defaults
              (RandomForest.new "gini" (DecisionTree.NFfraction 1) (-1) 10 true)
              [[0.5]; [2.5]]) as (H & _).
  apply H. reflexivity.
Defined.

Lemma train_mismatch_witness :
  length Scenario.X <> length Scenario.mixedY /\
  DecisionTree.train Scenario.model Scenario.X Scenario.mixedY [] =
    (Throw mismatch, Scenario.model, []).
Proof.
  assert (H : length Scenario.X <> length Scenario.mixedY)
    by (simpl; discriminate).
  split; [exact H|].
  destruct (train_mismatch_keeps_model (L := Double.logarithms)
              Scenario.X Scenario.mixedY H) as (HD & _).
  apply HD.
Defined.

Lemma forest_of_one_tree_witness :
  fst (fst (DecisionTree.train Scenario.defaults Scenario.X Scenario.y [])) = Ok tt /\
  forall x,
    RandomForest.predictSample
      (snd (fst (RandomForest.train
                   (RandomForest.new "gini" (DecisionTree.NFfraction 1) (-1) 1 false)
                   Scenario.X Scenario.y []))) x =
    DecisionTree.predictSample
      (snd (fst (DecisionTree.train Scenario.defaults Scenario.X Scenario.y []))) x.
Proof.
  assert (H : fst (fst (DecisionTree.train Scenario.defaults Scenario.X
                          Scenario.y [])) = Ok tt)
    by (vm_compute; reflexivity).
  split; [exact H|].
  destruct (forest_of_one_tree (L := Double.logarithms) "gini"
              (DecisionTree.NFfraction 1) (-1) Scenario.X Scenario.y [])
    as (_ & _ & Hp).
  destruct (Hp H) as (Hs & _). exact Hs.
Defined.

(** The impurities of C6 and the clamp of C2, as doubles. *)
Example gini_doubles :
  DecisionTree.gini (num := float) Scenario.y = 0.5 /\
  DecisionTree.gini (num := float) [Lab 3; Lab 3; Lab 3] = 0.
Proof. split; vm_compute; reflexivity. Qed.

(** The entropies of C6 as doubles, for any [Math.log] with these two
    values. *)
Example entropy_doubles :
  forall L : JSLog float,
    Math_log 1 = 0 ->
    Math_log 0.5 = -0x1.62e42fefa39efp-1 ->
    DecisionTree.entropy [Lab 3; Lab 3; Lab 3] = 0 /\
    DecisionTree.entropy Scenario.y = 0x1.62e42fefa39efp-1.
Proof.
  intros L H1 H2.
  assert (F1 : DecisionTree.frac_of (num := float) (Lab 3)
                 [Lab 3; Lab 3; Lab 3] = 1)
    by (vm_compute; reflexivity).
  assert (F2 : DecisionTree.frac_of (num := float) (Lab 0) Scenario.y = 0.5)
    by (vm_compute; reflexivity).
  assert (F3 : DecisionTree.frac_of (num := float) (Lab 1) Scenario.y = 0.5)
    by (vm_compute; reflexivity).
  unfold DecisionTree.entropy, Scenario.y in *.
  simpl Arrays.unique. cbn [fold_left].
  rewrite F1, F2, F3, H1, H2. split; vm_compute; reflexivity.
Qed.

Example fraction_clamped_doubles :
  forall L : JSLog float,
    DecisionTree.resolveNumFeatures (DecisionTree.NFfraction 2) (Some 1%nat)
    = VNum 1.
Proof. intros L. vm_compute. reflexivity. Qed.

(** The two values of C9 that differ, as doubles: 0.4444444444444445 and
    0.4444444444444444 in the shortest decimal notation. *)
Example gini_thirds_doubles :
  DecisionTree.gini (num := float) Scenario.thirds = 0x1.c71c71c71c71dp-2 /\
  DecisionTree.calculateWeightedImpurity [Scenario.thirds] DecisionTree.gini
  = VNum 0x1.c71c71c71c71cp-2.
Proof. split; vm_compute; reflexivity. Qed.

(** C9, as the claim states it, fails in doubles: for three labels of one
    class and six of another, the weighted Gini impurity of the single group
    is not the Gini impurity of the group (the product by 9 and the division
    by 9 round). *)
Lemma weighted_single_group_rounds :
  DecisionTree.calculateWeightedImpurity [Scenario.thirds] DecisionTree.gini
  <> VNum (DecisionTree.gini (num := float) Scenario.thirds).
Proof.
  intros H.
  apply (f_equal (fun v => match v with
                           | VNum x =>
                               PrimFloat.eqb x
                                 (DecisionTree.gini (num := float) Scenario.thirds)
                           | _ => false
                           end)) in H.
  vm_compute in H. discriminate H.
Qed.

End Doubles.

(** * The formulas, in exact arithmetic *)

Section ExactArithmetic.

Local Open Scope R_scope.

Import DecisionTree.

Lemma less_true : forall a b : R, Exact.less a b = true <-> a < b.
Proof.
  intros a b. unfold Exact.less. destruct (Rlt_dec a b); split; intros;
    try reflexivity; try assumption; try discriminate; contradiction.
Qed.

Lemma same_true : forall a b : R, Exact.same a b = true <-> a = b.
Proof.
  intros a b. unfold Exact.same. destruct (Req_dec_T a b); split; intros;
    try reflexivity; try assumption; try discriminate; contradiction.
Qed.

Lemma same_false : forall a b : R, a <> b -> Exact.same a b = false.
Proof.
  intros a b H. destruct (Exact.same a b) eqn:E; [|reflexivity].
  apply same_true in E. contradiction.
Qed.

Lemma less_false : forall a b : R, ~ a < b -> Exact.less a b = false.
Proof.
  intros a b H. destruct (Exact.less a b) eqn:E; [|reflexivity].
  apply less_true in E. contradiction.
Qed.

Lemma label_eqb_true : forall a b : label, label_eqb a b = true <-> a = b.
Proof.
  intros [|x] [|y]; simpl; split; intros H; try reflexivity;
    try discriminate.
  - apply Z.eqb_eq in H. now subst.
  - injection H as ->. apply Z.eqb_refl.
Qed.

Lemma len_positive :
  forall (A : Type) (l : list A), l <> [] -> 0 < IZR (Z.of_nat (length l)).
Proof.
  intros A [|x l] H; [contradiction|].
  apply IZR_lt. simpl length. lia.
Qed.

(** ** The weighted impurity of one group *)

Lemma weighted_single :
  forall (impurityCallback : list label -> R) (g : list label),
    g <> [] ->
    calculateWeightedImpurity [g] impurityCallback = VNum (impurityCallback g).
Proof.
  intros cb g Hg. unfold calculateWeightedImpurity. simpl.
  pose proof (len_positive Hg) as Hpos.
  destruct (Z.of_nat (length g) =? 0)%Z eqn:Hz.
  - apply Z.eqb_eq in Hz. rewrite Hz in Hpos. lra.
  - f_equal. unfold len. simpl. field. lra.
Qed.

(** C9, amended: over the real numbers, for every non-empty group and both
    criteria, the weighted impurity of the single group is the impurity of
    the group. *)
Theorem weighted_single_group_exact :
  forall (g : list label),
    g <> [] ->
    calculateWeightedImpurity (num := R) [g] gini = VNum (gini g) /\
    calculateWeightedImpurity (num := R) [g] entropy = VNum (entropy g) /\
    (forall self : @DecisionTree.t R,
        criterion self = "gini"%string ->
        calculateImpurity self [g] = VNum (gini g)) /\
    (forall self : @DecisionTree.t R,
        criterion self = "entropy"%string ->
        calculateImpurity self [g] = VNum (entropy g)).
Proof.
  intros g Hg. repeat split.
  - now apply weighted_single.
  - now apply weighted_single.
  - intros self Hc. unfold calculateImpurity. rewrite Hc.
    change (calculateWeightedImpurity (num := R) [g] gini = VNum (gini g)).
    now apply weighted_single.
  - intros self Hc. unfold calculateImpurity. rewrite Hc.
    change (calculateWeightedImpurity (num := R) [g] entropy
            = VNum (entropy g)).
    now apply weighted_single.
Qed.

Lemma weighted_single_group_witness :
  Scenario.thirds <> [] /\
  calculateWeightedImpurity (num := R) [Scenario.thirds] gini =
    VNum (gini Scenario.thirds).
Proof.
  assert (H : Scenario.thirds <> []) by discriminate.
  split; [exact H|].
  destruct (weighted_single_group_exact H) as (H1 & _). exact H1.
Defined.

(** ** [Arrays.unique] on labels *)

Lemma unique_In :
  forall (l : list label) (x : label),
    In x (Arrays.unique label_eqb l) <-> In x l.
Proof.
  induction l as [|a l IH]; intros x; simpl.
  - tauto.
  - rewrite filter_In, IH. split.
    + intros [H|[H _]]; auto.
    + intros [H|H]; auto.
      destruct (label_eqb x a) eqn:E.
      * apply label_eqb_true in E. auto.
      * right. split; [exact H | reflexivity].
Qed.

Lemma unique_NoDup : forall l : list label, NoDup (Arrays.unique label_eqb l).
Proof.
  induction l as [|a l IH]; simpl.
  - constructor.
  - constructor.
    + rewrite filter_In. intros [_ H].
      rewrite label_eqb_refl in H. discriminate.
    + now apply NoDup_filter.
Qed.

Lemma NoDup_one :
  forall (l : list label) (a : label),
    NoDup l -> l <> [] -> (forall x, In x l -> x = a) -> l = [a].
Proof.
  intros [|x [|y l]] a Hnd Hne Hall.
  - contradiction.
  - f_equal. apply Hall. now left.
  - exfalso. inversion Hnd as [|? ? Hx _]; subst. apply Hx.
    rewrite (Hall x), (Hall y); simpl; auto.
Qed.

Lemma NoDup_two :
  forall (l : list label) (a b : label),
    NoDup l -> a <> b -> (forall x, In x l <-> x = a \/ x = b) ->
    l = [a; b] \/ l = [b; a].
Proof.
  intros l a b Hnd Hab Hall.
  assert (Ha : In a l) by (apply Hall; auto).
  assert (Hb : In b l) by (apply Hall; auto).
  destruct l as [|x [|y [|z l]]].
  - contradiction.
  - simpl in Ha, Hb. destruct Ha as [<-|[]], Hb as [<-|[]]. contradiction.
  - inversion Hnd as [|? ? Hx _]; subst.
    assert (Hxy : x <> y) by (intros ->; apply Hx; now left).
    destruct (proj1 (Hall x) ltac:(simpl; auto)) as [->| ->];
      destruct (proj1 (Hall y) ltac:(simpl; auto)) as [->| ->];
      auto; contradiction.
  - exfalso. inversion Hnd as [|? ? Hx Hnd']; subst.
    inversion Hnd' as [|? ? Hy _]; subst.
    assert (Hxy : x <> y) by (intros ->; apply Hx; now left).
    assert (Hxz : x <> z) by (intros ->; apply Hx; simpl; auto).
    assert (Hyz : y <> z) by (intros ->; apply Hy; now left).
    destruct (proj1 (Hall x) ltac:(simpl; auto)) as [->| ->];
      destruct (proj1 (Hall y) ltac:(simpl; auto)) as [->| ->];
      destruct (proj1 (Hall z) ltac:(simpl; auto)) as [->| ->];
      contradiction.
Qed.

Lemma filter_all :
  forall (l : list label) (a : label),
    (forall x, In x l -> x = a) ->
    filter (fun x => label_eqb x a) l = l.
Proof.
  induction l as [|x l IH]; intros a Hall; simpl.
  - reflexivity.
  - rewrite (Hall x) at 1 by now left. rewrite label_eqb_refl.
    f_equal. apply IH. intros z Hz. apply Hall. now right.
Qed.

Lemma frac_of_single :
  forall (g : list label) (a : label),
    g <> [] -> (forall x, In x g -> x = a) -> frac_of (num := R) a g = 1.
Proof.
  intros g a Hg Hall. unfold frac_of. rewrite filter_all by exact Hall.
  unfold len. simpl. field. pose proof (len_positive Hg). lra.
Qed.

Lemma count_two :
  forall (g : list label) (a b : label),
    a <> b -> (forall x, In x g -> x = a \/ x = b) ->
    (Arrays.count label_eqb a g + Arrays.count label_eqb b g)%Z
    = Z.of_nat (length g).
Proof.
  intros g a b Hab. unfold Arrays.count.
  induction g as [|x g IH]; intros Hall; simpl.
  - reflexivity.
  - assert (IH' := IH (fun z Hz => Hall z (or_intror Hz))).
    destruct (Hall x (or_introl eq_refl)) as [->| ->].
    + rewrite label_eqb_refl.
      destruct (label_eqb a b) eqn:E;
        [apply label_eqb_true in E; contradiction|].
      simpl length. lia.
    + rewrite label_eqb_refl.
      destruct (label_eqb b a) eqn:E;
        [apply label_eqb_true in E; symmetry in E; contradiction|].
      simpl length. lia.
Qed.

Lemma frac_of_half :
  forall (g : list label) (a b : label),
    g <> [] -> a <> b -> (forall x, In x g -> x = a \/ x = b) ->
    Arrays.count label_eqb a g = Arrays.count label_eqb b g ->
    frac_of (num := R) a g = / 2 /\ frac_of (num := R) b g = / 2.
Proof.
  intros g a b Hg Hab Hall Heq.
  pose proof (count_two g Hab Hall) as Hsum.
  pose proof (len_positive Hg) as Hpos.
  unfold frac_of, len. simpl.
  fold (Arrays.count label_eqb a g). fold (Arrays.count label_eqb b g).
  rewrite <- Hsum, <- Heq in *. rewrite plus_IZR in *.
  split; field; lra.
Qed.

Lemma count_positive_In :
  forall (g : list label) (a : label),
    (0 < Arrays.count label_eqb a g)%Z -> In a g.
Proof.
  intros g a H. unfold Arrays.count in H.
  destruct (filter (fun y => label_eqb y a) g) as [|x l] eqn:E;
    [simpl in H; lia|].
  assert (Hx : In x (filter (fun y => label_eqb y a) g))
    by (rewrite E; now left).
  apply filter_In in Hx. destruct Hx as [Hx Hxa].
  apply label_eqb_true in Hxa. now subst.
Qed.

Lemma unique_single :
  forall (g : list label) (a : label),
    g <> [] -> (forall x, In x g -> x = a) ->
    Arrays.unique label_eqb g = [a].
Proof.
  intros g a Hg Hall. apply NoDup_one.
  - apply unique_NoDup.
  - destruct g as [|x g]; [contradiction | discriminate].
  - intros x Hx. apply Hall. now apply unique_In.
Qed.

Lemma unique_pair :
  forall (g : list label) (a b : label),
    g <> [] -> a <> b -> (forall x, In x g -> x = a \/ x = b) ->
    Arrays.count label_eqb a g = Arrays.count label_eqb b g ->
    Arrays.unique label_eqb g = [a; b] \/ Arrays.unique label_eqb g = [b; a].
Proof.
  intros g a b Hg Hab Hall Heq.
  pose proof (count_two g Hab Hall) as Hsum.
  assert (Hpos : (0 < Z.of_nat (length g))%Z)
    by (destruct g; [contradiction | simpl length; lia]).
  apply NoDup_two; [apply unique_NoDup | exact Hab |].
  intros x. rewrite unique_In. split; [apply Hall|].
  intros [->| ->]; apply count_positive_In; lia.
Qed.

(** C6: over the real numbers, a non-empty group of a single class has Gini
    impurity 0 and entropy 0, and a group split evenly across two classes
    has Gini impurity 1/2 and entropy ln 2. *)
Theorem impurity_of_one_and_two_classes :
  forall (g : list label),
    g <> [] ->
    (forall a : label,
        (forall x, In x g -> x = a) ->
        gini (num := R) g = 0 /\ entropy (num := R) g = 0) /\
    (forall a b : label,
        a <> b ->
        (forall x, In x g -> x = a \/ x = b) ->
        Arrays.count label_eqb a g = Arrays.count label_eqb b g ->
        gini (num := R) g = 1 / 2 /\ entropy (num := R) g = ln 2).
Proof.
  intros g Hg. split.
  - intros a Hall. unfold gini, entropy.
    rewrite (unique_single Hg Hall). cbn [fold_left].
    rewrite (frac_of_single Hg Hall). simpl. rewrite ln_1. split; ring.
  - intros a b Hab Hall Heq.
    destruct (frac_of_half Hg Hab Hall Heq) as [Ha Hb].
    assert (Hln : ln (/ 2) = - ln 2) by (apply ln_Rinv; lra).
    unfold gini, entropy.
    destruct (unique_pair Hg Hab Hall Heq) as [-> | ->]; cbn [fold_left];
      rewrite Ha, Hb; simpl; rewrite Hln; split; field.
Qed.

Lemma impurity_of_one_and_two_classes_witness :
  Scenario.y <> [] /\
  gini (num := R) Scenario.y = 1 / 2 /\ entropy (num := R) Scenario.y = ln 2.
Proof.
  assert (H : Scenario.y <> []) by discriminate.
  split; [exact H|].
  destruct (impurity_of_one_and_two_classes H) as (_ & H2).
  apply (H2 (Lab 0) (Lab 1)).
  - discriminate.
  - unfold Scenario.y. simpl. intuition.
  - reflexivity.
Defined.

(** ** The feature count that [train] resolves *)



Lemma floor_IZR : forall z : Z, Exact.floor (IZR z) = IZR z.
Proof.
  intros z. unfold Exact.floor. f_equal. symmetry.
  apply Int_part_spec. lra.
Qed.





End ExactArithmetic.

(** * The order of numbers *)

Section SpecFloatOrder.

Ltac compare_cases :=
  change (Pos.compare_cont Eq ?x ?y) with (Pos.compare x y) in *;
  repeat match goal with
         | |- context [(?x ?= ?y)%Z] => destruct (Z.compare_spec x y)
         | H : context [(?x ?= ?y)%Z] |- _ => destruct (Z.compare_spec x y)
         | |- context [(?x ?= ?y)%positive] =>
             destruct (Pos.compare_spec x y)
         | H : context [(?x ?= ?y)%positive] |- _ =>
             destruct (Pos.compare_spec x y)
         end;
  simpl in *; try discriminate; try reflexivity; try lia.

Ltac float_cases :=
  simpl; try discriminate; try reflexivity;
  repeat match goal with s : bool |- _ => destruct s end;
  simpl; try discriminate; try reflexivity; intros; compare_cases.

Lemma SFcompare_antisym :
  forall a b : spec_float,
    SFcompare b a = option_map CompOpp (SFcompare a b).
Proof.
  intros [sa|sa| |sa ma ea] [sb|sb| |sb mb eb]; float_cases.
Qed.

Lemma SFltb_trans :
  forall a b c : spec_float,
    SFltb a b = true -> SFltb b c = true -> SFltb a c = true.
Proof.
  unfold SFltb.
  intros [sa|sa| |sa ma ea] [sb|sb| |sb mb eb] [sc|sc| |sc mc ec];
    float_cases.
Qed.

Lemma SFeqb_trans :
  forall a b c : spec_float,
    SFeqb a b = true -> SFeqb b c = true -> SFeqb a c = true.
Proof.
  unfold SFeqb.
  intros [sa|sa| |sa ma ea] [sb|sb| |sb mb eb] [sc|sc| |sc mc ec];
    float_cases.
Qed.

Lemma SFltb_total :
  forall a b : spec_float,
    SFeqb a a = true -> SFeqb b b = true ->
    SFltb a b = false -> SFltb b a = false -> SFeqb a b = true.
Proof.
  unfold SFeqb, SFltb.
  intros [sa|sa| |sa ma ea] [sb|sb| |sb mb eb]; float_cases.
Qed.

Lemma SFadd_zero :
  forall a : spec_float,
    SFeqb a a = true -> SFeqb (SF64add a (S754_zero false)) a = true.
Proof.
  unfold SFeqb. intros [sa|sa| |sa ma ea]; float_cases.
Qed.

End SpecFloatOrder.

(** Doubles: [<] and [===] are the comparisons of IEEE-754. *)
#[global] Instance double_order : JSOrder float.
Proof.
  split.
  - intros a b. simpl. rewrite !FloatAxioms.eqb_spec. unfold SFeqb.
    rewrite (SFcompare_antisym (Prim2SF a) (Prim2SF b)).
    destruct (SFcompare (Prim2SF a) (Prim2SF b)) as [[]|]; reflexivity.
  - intros a b c. simpl. rewrite !FloatAxioms.eqb_spec. apply SFeqb_trans.
  - intros a b c. simpl. rewrite !FloatAxioms.ltb_spec. apply SFltb_trans.
  - intros a b. unfold number. simpl.
    rewrite !FloatAxioms.eqb_spec, !FloatAxioms.ltb_spec. apply SFltb_total.
  - intros a. unfold number. simpl.
    rewrite !FloatAxioms.eqb_spec, FloatAxioms.add_spec.
    change (Prim2SF (Double.from_Z 0)) with (S754_zero false).
    apply SFadd_zero.
Qed.

(** Real numbers. *)
#[global] Instance exact_order : JSOrder R.
Proof.
  split.
  - intros a b. simpl.
    destruct (Exact.same a b) eqn:E1, (Exact.same b a) eqn:E2;
      try reflexivity.
    + apply same_true in E1. symmetry in E1. apply same_true in E1. congruence.
    + apply same_true in E2. symmetry in E2. apply same_true in E2. congruence.
  - intros a b c. simpl. rewrite !same_true. congruence.
  - intros a b c. simpl. rewrite !less_true. apply Rlt_trans.
  - intros a b _ _. simpl. intros H1 H2. apply same_true.
    destruct (Rtotal_order a b) as [H|[H|H]]; [|exact H|].
    + apply less_true in H. congruence.
    + apply less_true in H. congruence.
  - intros a _. simpl. apply same_true. lra.
Qed.

(** * The sorted distinct values of a feature *)

Section SortedValues.

Context {num : Type} {N : JSNumber num} {O : JSOrder num}.

Import DecisionTree.

















End SortedValues.

(** * The thresholds that [findSplit] examines *)

Section Thresholds.

Context {num : Type} {N : JSNumber num} {L : JSLog num}.

Import DecisionTree.





End Thresholds.



(** ** The thresholds in doubles *)

Section ThresholdsInDoubles.

Local Open Scope float_scope.

(** The thresholds of the values 1e308 and 1.7e308, whose sum overflows,
    and of four doubles next to each other, whose sums round. *)
Example thresholds_doubles :
  DecisionTree.sampleValues (Arrays.columns Examples.hugeX) 0
  = [0x1.1ccf385ebc8a0p+1023; 0x1.e42d130773b76p+1023] /\
  DecisionTree.splitValues (Arrays.columns Examples.hugeX) 0
  = [PrimFloat.infinity] /\
  DecisionTree.sampleValues (Arrays.columns Examples.adjacentX) 0
  = [1; 0x1.0000000000001p+0; 0x1.0000000000002p+0; 0x1.0000000000003p+0] /\
  DecisionTree.splitValues (Arrays.columns Examples.adjacentX) 0
  = [1; 0x1.0000000000002p+0; 0x1.0000000000002p+0].
Proof. repeat split; vm_compute; reflexivity. Qed.

(** With the threshold at [Infinity] no sample goes right: [findSplit]
    finds no split for two samples that differ, and [train] throws. *)
Example train_overflow_throws :
  forall (L : JSLog float) (r : rng),
    fst (DecisionTree.findSplit
           (DecisionTree.with_numFeaturesInt Scenario.defaults (VNum 1))
           Examples.hugeX Scenario.mixedY (VNum 0.5) r) = Ok None /\
    fst (fst (DecisionTree.train Scenario.defaults Examples.hugeX
                Scenario.mixedY r)) = Throw TypeError.
Proof.
  intros L r. destruct r as [|d r]; split; vm_compute; reflexivity.
Qed.



End ThresholdsInDoubles.

(** * The groups of a split, in any arithmetic *)

Section SplitGroups.

Context {num : Type} {N : JSNumber num} {L : JSLog num}.

Import DecisionTree.

Lemma splitSamples_from_features :
  forall (XSub : list (list num)) (i : nat) (ySub : list label) (fInd : nat)
         (splitValue : num),
    let g := splitSamples_from i XSub ySub fInd splitValue in
    fst (features g) = filter (fun x => lt_at x fInd splitValue) XSub /\
    snd (features g) = filter (fun x => negb (lt_at x fInd splitValue)) XSub.
Proof.
  induction XSub as [|x rest IH]; intros i ySub fInd splitValue; simpl.
  - auto.
  - destruct (IH (S i) ySub fInd splitValue) as [H1 H2].
    destruct (lt_at x fInd splitValue); simpl; split; congruence.
Qed.

Lemma splitSamples_from_aligned :
  forall (XSub : list (list num)) (i : nat) (ySub : list label) (fInd : nat)
         (splitValue : num),
    let g := splitSamples_from i XSub ySub fInd splitValue in
    Forall (fun j => (i <= j < i + length XSub)%nat)
           (fst (indices g) ++ snd (indices g)) /\
    fst (features g) = map (fun j => nth (j - i) XSub []) (fst (indices g)) /\
    snd (features g) = map (fun j => nth (j - i) XSub []) (snd (indices g)) /\
    fst (labels g) = map (fun j => nth j ySub Undefined) (fst (indices g)) /\
    snd (labels g) = map (fun j => nth j ySub Undefined) (snd (indices g)).
Proof.
  induction XSub as [|x rest IH]; intros i ySub fInd splitValue.
  - simpl. repeat split; constructor.
  - destruct (IH (S i) ySub fInd splitValue) as (Hr & H1 & H2 & H3 & H4).
    assert (Hshift : forall l : list nat,
               Forall (fun j => (S i <= j)%nat) l ->
               map (fun j => nth (j - S i) rest []) l =
               map (fun j => nth (j - i) (x :: rest) []) l).
    { intros l Hl. apply map_ext_in. intros j Hj.
      rewrite Forall_forall in Hl. specialize (Hl j Hj).
      replace (j - i)%nat with (S (j - S i)) by lia. reflexivity. }
    apply Forall_app in Hr. destruct Hr as [Hr1 Hr2].
    assert (Hge1 : Forall (fun j => (S i <= j)%nat)
                     (fst (indices (splitSamples_from (S i) rest ySub fInd splitValue))))
      by (eapply Forall_impl; [|exact Hr1]; simpl; intros; lia).
    assert (Hge2 : Forall (fun j => (S i <= j)%nat)
                     (snd (indices (splitSamples_from (S i) rest ySub fInd splitValue))))
      by (eapply Forall_impl; [|exact Hr2]; simpl; intros; lia).
    assert (Hw1 : Forall (fun j => (i <= j < i + length (x :: rest))%nat)
                    (fst (indices (splitSamples_from (S i) rest ySub fInd splitValue))))
      by (eapply Forall_impl; [|exact Hr1]; simpl; intros; lia).
    assert (Hw2 : Forall (fun j => (i <= j < i + length (x :: rest))%nat)
                    (snd (indices (splitSamples_from (S i) rest ySub fInd splitValue))))
      by (eapply Forall_impl; [|exact Hr2]; simpl; intros; lia).
    simpl splitSamples_from.
    destruct (lt_at x fInd splitValue); cbn [indices features labels fst snd].
    + repeat split.
      * cbn [app]. constructor; [simpl; lia|]. apply Forall_app. now split.
      * cbn [map]. rewrite Nat.sub_diag. cbn [nth]. f_equal.
        rewrite H1. now apply Hshift.
      * rewrite H2. now apply Hshift.
      * cbn [map]. now rewrite H3.
      * exact H4.
    + repeat split.
      * apply Forall_app. split; [exact Hw1|].
        constructor; [simpl; lia | exact Hw2].
      * rewrite H1. now apply Hshift.
      * cbn [map]. rewrite Nat.sub_diag. cbn [nth]. f_equal.
        rewrite H2. now apply Hshift.
      * exact H3.
      * cbn [map]. now rewrite H4.
Qed.

Lemma splitSamples_from_indices :
  forall (XSub : list (list num)) (i : nat) (ySub : list label) (fInd : nat)
         (splitValue : num),
    let g := splitSamples_from i XSub ySub fInd splitValue in
    Permutation (fst (indices g) ++ snd (indices g)) (seq i (length XSub)).
Proof.
  induction XSub as [|x rest IH]; intros i ySub fInd splitValue; simpl.
  - constructor.
  - specialize (IH (S i) ySub fInd splitValue). simpl in IH.
    destruct (lt_at x fInd splitValue); simpl.
    + now constructor.
    + eapply perm_trans; [apply Permutation_sym, Permutation_middle|].
      now constructor.
Qed.

(** X3: [splitSamples] puts every sample in exactly one group, the left one
    exactly when its value of the feature is below the split value, and
    keeps the order of the samples. Position by position, the indices, the
    rows and the labels of a group belong to the same sample. *)
Theorem splitSamples_partition :
  forall (XSub : list (list num)) (ySub : list label) (fInd : nat)
         (splitValue : num),
    let g := splitSamples XSub ySub fInd splitValue in
    fst (features g) = filter (fun x => lt_at x fInd splitValue) XSub /\
    snd (features g) = filter (fun x => negb (lt_at x fInd splitValue)) XSub /\
    Permutation (fst (indices g) ++ snd (indices g)) (seq 0 (length XSub)) /\
    fst (features g) = map (fun j => nth j XSub []) (fst (indices g)) /\
    snd (features g) = map (fun j => nth j XSub []) (snd (indices g)) /\
    fst (labels g) = map (fun j => nth j ySub Undefined) (fst (indices g)) /\
    snd (labels g) = map (fun j => nth j ySub Undefined) (snd (indices g)).
Proof.
  intros XSub ySub fInd splitValue g. subst g. unfold splitSamples.
  destruct (splitSamples_from_features XSub 0 ySub fInd splitValue) as [F1 F2].
  destruct (splitSamples_from_aligned XSub 0 ySub fInd splitValue)
    as (_ & A1 & A2 & A3 & A4).
  pose proof (splitSamples_from_indices XSub 0 ySub fInd splitValue) as P.
  assert (E : forall l : list nat,
             map (fun j => nth (j - 0) XSub []) l =
             map (fun j => nth j XSub []) l)
    by (intros l; apply map_ext; intros j; now rewrite Nat.sub_0_r).
  rewrite E in A1, A2. repeat split; assumption.
Qed.

End SplitGroups.

(** * Further properties of the trees, in any arithmetic *)

Section TreeShape.

Context {num : Type} {N : JSNumber num} {L : JSLog num}.

Import DecisionTree.

(** ** What [buildTree] throws *)

Lemma majority_throws :
  forall ySub e, majority ySub = Throw e -> e = TypeError.
Proof.
  intros ySub e. unfold majority.
  destruct (Arrays.valueCounts label_eqb ySub); intros H;
    [injection H as <-; reflexivity | discriminate].
Qed.

(** The rows of the two groups of a split are rows of the node. *)
Lemma group_rows :
  forall (XSub : list (list num)) (ySub : list label) (s : DataSplit),
    valid_split XSub ySub s ->
    (forall x, In x (fst (features (groups s))) -> In x XSub) /\
    (forall x, In x (snd (features (groups s))) -> In x XSub).
Proof.
  intros XSub ySub s (Hg & _ & _).
  destruct (splitSamples_from_features XSub 0 ySub (feature s) (featureValue s))
    as [F1 F2].
  fold (splitSamples XSub ySub (feature s) (featureValue s)) in F1, F2.
  rewrite <- Hg in F1, F2. rewrite F1, F2.
  split; intros x Hx; apply filter_In in Hx; tauto.
Qed.

(** What [buildTree] throws is a [TypeError], or the refusal of the sampler
    at a node one of whose rows has fewer features than it is asked for. *)
Lemma buildTree_throws :
  forall fuel (self : DecisionTree.t) XSub ySub depth r e,
    fst (buildTree fuel self XSub ySub depth r) = Throw e ->
    e = TypeError \/
    (e = Random.oversized /\
     exists x, In x XSub /\
               (length x < count_of (numFeaturesInt self))%nat).
Proof.
  induction fuel as [|fuel IH]; intros self XSub ySub depth r e; simpl;
    [discriminate|].
  destruct (is_zero _); [discriminate|].
  destruct (_ && _).
  - destruct (majority ySub) as [p|e'|] eqn:Hm; simpl; try discriminate.
    intros H; injection H as <-. left. now apply majority_throws in Hm.
  - pose proof (findSplit_outcome self XSub ySub
                  (calculateImpurity self [ySub]) r) as Ho.
    destruct (findSplit self XSub ySub _ r) as [[[s|]|e0|] r1] eqn:Hs; simpl.
    + clear Ho. apply findSplit_valid in Hs.
      destruct (group_rows Hs) as [G1 G2].
      pose proof (IH self (fst (features (groups s)))
                    (fst (labels (groups s))) (depth + 1)%Z r1) as H1.
      destruct (buildTree fuel self (fst (features (groups s))) _ _ r1)
        as [[nleft|e1|] r2]; simpl in *; try discriminate.
      * pose proof (IH self (snd (features (groups s)))
                      (snd (labels (groups s))) (depth + 1)%Z r2) as H2.
        destruct (buildTree fuel self (snd (features (groups s))) _ _ r2)
          as [[nright|e2|] r3]; simpl in *; try discriminate.
        intros H; injection H as <-.
        destruct (H2 e2 eq_refl) as [He|(He & x & Hx & Hlt)]; [now left|].
        right. split; [exact He|]. exists x. auto.
      * intros H; injection H as <-.
        destruct (H1 e1 eq_refl) as [He|(He & x & Hx & Hlt)]; [now left|].
        right. split; [exact He|]. exists x. auto.
    + intros H; injection H as <-. now left.
    + intros H; injection H as <-.
      destruct Ho as [_ [[_ He]|(Hne & He & Hlt)]]; [now left|].
      right. split; [exact He|].
      destruct XSub as [|x XSub]; [contradiction|].
      exists x. split; [now left | exact Hlt].
    + contradiction.
Qed.

(** The member [numFeaturesInt] during the [buildTree] of [train]. *)
Lemma train_runs_buildTree :
  forall (self : DecisionTree.t) X y r,
    length X = length y ->
    let self1 :=
      with_numFeaturesInt self
        (resolveNumFeatures (numFeatures self)
           (nth_error (Arrays.getShape X) 1)) in
    fst (fst (train self X y r)) =
    match fst (buildTree (S (length X)) self1 X y 0 r) with
    | Ok _ => Ok tt
    | Throw e => Throw e
    | OutOfFuel => OutOfFuel
    end /\
    snd (train self X y r) = snd (buildTree (S (length X)) self1 X y 0 r).
Proof.
  intros self X y r Hlen self1. unfold train.
  apply Nat.eqb_eq in Hlen. rewrite Hlen. simpl negb. cbv iota.
  fold self1.
  destruct (buildTree (S (length X)) self1 X y 0 r) as [[root| e |] r'];
    split; reflexivity.
Qed.

Lemma sample_refuses :
  forall (A : Type) (input : list A) (number : nat) (r : rng),
    (length input < number)%nat ->
    Random.sample input number false r = (Throw Random.oversized, r).
Proof.
  intros A input number r H. unfold Random.sample. simpl negb.
  now rewrite (proj2 (Nat.ltb_lt _ _) H).
Qed.

(** At a node that has to be split and whose first row has fewer features
    than the sampler is asked for, [buildTree] ends with the refusal of the
    sampler, before anything is drawn. *)
Lemma buildTree_refused :
  forall fuel (self : DecisionTree.t) x XSub ySub depth r,
    is_zero (calculateImpurity self [ySub]) = false ->
    ((maxDepth self >=? 0) && (depth >=? maxDepth self))%Z = false ->
    (length x < count_of (numFeaturesInt self))%nat ->
    buildTree (S fuel) self (x :: XSub) ySub depth r
    = (Throw Random.oversized, r).
Proof.
  intros fuel self x XSub ySub depth r Himp Hdepth Hlt. simpl.
  rewrite Himp, Hdepth.
  pose proof (findSplit_outcome self (x :: XSub) ySub
                (calculateImpurity self [ySub]) r) as Ho.
  destruct (findSplit self (x :: XSub) ySub _ r) as [[found|e|] r1].
  - destruct Ho as (_ & Hle & _). simpl in Hle. lia.
  - destruct Ho as [-> [[Hnil _]|(_ & -> & _)]]; [discriminate | reflexivity].
  - contradiction.
Qed.

(** X1: [train] throws the error for mismatched lengths exactly when the
    numbers of rows and labels differ. Otherwise it ends in one of three
    ways: it completes, it throws a [TypeError], or it throws what the
    sampler throws when it is asked for more features than a row has; the
    recursion of [buildTree] always ends. The last happens, before anything
    is drawn, when the labels are impure, the maximal depth is not 0 and the
    first row has fewer features than the resolved feature count. *)
Theorem train_outcomes :
  forall (self : DecisionTree.t) X y r,
    let count :=
      count_of (Some (resolveNumFeatures (numFeatures self)
                        (nth_error (Arrays.getShape X) 1))) in
    let outcome := fst (fst (train self X y r)) in
    (length X <> length y -> outcome = Throw mismatch) /\
    (length X = length y ->
     outcome = Ok tt \/
     outcome = Throw TypeError \/
     exists e x,
       In x X /\ (length x < count)%nat /\ outcome = Throw e /\
       forall r0,
         fst (Random.sample (seq 0 (length x)) count false r0) = Throw e) /\
    (length X = length y ->
     forall x X',
       X = x :: X' ->
       is_zero (calculateImpurity self [y]) = false ->
       maxDepth self <> 0%Z ->
       (length x < count)%nat ->
       exists e,
         outcome = Throw e /\ e <> TypeError /\ snd (train self X y r) = r).
Proof.
  intros self X y r count outcome. subst outcome. split; [|split].
  - intros Hlen. unfold train.
    apply Nat.eqb_neq in Hlen. rewrite Hlen. reflexivity.
  - intros Hlen.
    destruct (@train_runs_buildTree self X y r Hlen) as [-> _].
    match goal with
    | |- context [buildTree ?f ?s ?a ?b ?d ?r0] =>
        pose proof (@buildTree_fuel _ _ _ f s a b d r0 ltac:(lia)) as Hf;
        pose proof (@buildTree_throws f s a b d r0) as Ht;
        destruct (buildTree f s a b d r0) as [[root| e |] r']
    end; cbn [fst] in Hf, Ht |- *.
    + now left.
    + right. destruct (Ht e eq_refl) as [->|(-> & x & Hx & Hlt)];
        [now left|].
      right. exists Random.oversized, x.
      split; [exact Hx|]. split; [exact Hlt|]. split; [reflexivity|].
      intros r0. rewrite sample_refuses; [reflexivity|].
      rewrite length_seq. exact Hlt.
    + congruence.
  - intros Hlen x X' -> Himp Hdepth Hlt.
    destruct (@train_runs_buildTree self (x :: X') y r Hlen) as [-> ->].
    rewrite buildTree_refused.
    + exists Random.oversized. split; [reflexivity|].
      split; [discriminate | reflexivity].
    + exact Himp.
    + cbn [maxDepth with_numFeaturesInt].
      destruct (maxDepth self >=? 0)%Z eqn:E1; [|reflexivity].
      destruct (0 >=? maxDepth self)%Z eqn:E2; [|reflexivity]. lia.
    + exact Hlt.
Qed.

(** ** The depth of a tree *)

Lemma buildTree_height :
  forall fuel (self : DecisionTree.t) XSub ySub depth r root r',
    (0 <= maxDepth self)%Z ->
    (depth <= maxDepth self)%Z ->
    buildTree fuel self XSub ySub depth r = (Ok root, r') ->
    (Z.of_nat (height root) <= maxDepth self - depth)%Z.
Proof.
  induction fuel as [|fuel IH]; intros self XSub ySub depth r root r' Hmax Hd;
    simpl; [discriminate|].
  destruct (is_zero _); [intros H; injection H as <- _; simpl; lia|].
  destruct (_ && _) eqn:Hc.
  - destruct (majority ySub); try discriminate.
    intros H; injection H as <- _. simpl. lia.
  - apply andb_false_iff in Hc.
    assert (Hlt : (depth < maxDepth self)%Z) by (destruct Hc as [Hc|Hc]; lia).
    destruct (findSplit self XSub ySub _ r) as [[[s|]|e0|] r1];
      try discriminate.
    destruct (buildTree fuel self (fst (features (groups s))) _ _ r1)
      as [[nleft|e1|] r2] eqn:H1; try discriminate.
    destruct (buildTree fuel self (snd (features (groups s))) _ _ r2)
      as [[nright|e2|] r3] eqn:H2; try discriminate.
    intros H; injection H as <- _.
    apply IH in H1; [|lia|lia]. apply IH in H2; [|lia|lia].
    simpl height. lia.
Qed.

(** X2: with a maximal depth [maxDepth >= 0], the tree of a completed
    [train] has no path with more than [maxDepth] internal nodes. *)
Theorem train_height :
  forall (self self' : DecisionTree.t) X y r r',
    (0 <= maxDepth self)%Z ->
    train self X y r = (Ok tt, self', r') ->
    exists root,
      tree self' = Some root /\ (Z.of_nat (height root) <= maxDepth self)%Z.
Proof.
  intros self self' X y r r' Hmax H. unfold train in H.
  destruct (negb _); [discriminate|].
  destruct (buildTree _ _ X y 0 r) as [[root| e |] r1] eqn:Hb;
    try discriminate.
  injection H as <- _. exists root. split; [reflexivity|].
  apply buildTree_height in Hb; simpl in *; lia.
Qed.

End TreeShape.

(** * Purity, in exact arithmetic *)

Section Purity.

Local Open Scope R_scope.

Import DecisionTree.

Lemma fold_add_nonneg :
  forall (A : Type) (f : A -> R) (l : list A) (r0 : R),
    (forall a, In a l -> 0 <= f a) ->
    r0 <= fold_left (fun r a => r + f a) l r0 /\
    (fold_left (fun r a => r + f a) l r0 = r0 ->
     forall a, In a l -> f a = 0).
Proof.
  intros A f l. induction l as [|x l IH]; intros r0 Hf; simpl.
  - split; [lra | intros _ a []].
  - assert (Hx : 0 <= f x) by (apply Hf; now left).
    destruct (IH (r0 + f x) (fun a Ha => Hf a (or_intror Ha))) as [Hle Hzero].
    split; [lra|]. intros Heq a [<-|Ha].
    + lra.
    + apply Hzero; [|exact Ha]. lra.
Qed.

Lemma filter_length_le :
  forall (A : Type) (p : A -> bool) (l : list A),
    (length (filter p l) <= length l)%nat.
Proof.
  intros A p l. induction l as [|x l IH]; simpl; [lia|].
  destruct (p x); simpl; lia.
Qed.

Lemma filter_length_all :
  forall (A : Type) (p : A -> bool) (l : list A),
    length (filter p l) = length l -> forall x, In x l -> p x = true.
Proof.
  intros A p l. induction l as [|y l IH]; simpl; intros Hlen x Hx; [easy|].
  pose proof (filter_length_le p l) as Hle.
  destruct (p y) eqn:E; simpl in Hlen; [|lia].
  destruct Hx as [<-|Hx]; [exact E | apply IH; [lia | exact Hx]].
Qed.

(** The fraction of a label that occurs lies in (0, 1], and is 1 only in a
    group of that label alone. *)
Lemma frac_of_range :
  forall (g : list label) (a : label),
    In a g -> 0 < frac_of (num := R) a g <= 1.
Proof.
  intros g a Ha. unfold frac_of, len. simpl.
  assert (Hg : g <> []) by (intros ->; contradiction).
  pose proof (len_positive Hg) as Hpos.
  assert (Hf : filter (fun x => label_eqb x a) g <> []).
  { intros E. assert (Hin : In a (filter (fun x => label_eqb x a) g))
      by (apply filter_In; split; [exact Ha | apply label_eqb_refl]).
    rewrite E in Hin. contradiction. }
  pose proof (len_positive Hf) as Hfpos.
  pose proof (filter_length_le (fun x => label_eqb x a) g) as Hle.
  apply Nat2Z.inj_le, IZR_le in Hle.
  split.
  - apply Rdiv_lt_0_compat; assumption.
  - apply Rmult_le_reg_r with (IZR (Z.of_nat (length g))); [exact Hpos|].
    unfold Rdiv. rewrite Rmult_assoc, Rinv_l by lra. lra.
Qed.

Lemma frac_of_one :
  forall (g : list label) (a : label),
    g <> [] -> frac_of (num := R) a g = 1 -> forall x, In x g -> x = a.
Proof.
  intros g a Hg Hfrac x Hx. unfold frac_of, len in Hfrac. simpl in Hfrac.
  pose proof (len_positive Hg) as Hpos.
  assert (Heq : IZR (Z.of_nat (length (filter (fun y => label_eqb y a) g)))
                = IZR (Z.of_nat (length g))).
  { apply Rmult_eq_reg_r with (/ IZR (Z.of_nat (length g))).
    - fold (Rdiv (IZR (Z.of_nat (length (filter (fun y => label_eqb y a) g))))
                 (IZR (Z.of_nat (length g)))).
      rewrite Hfrac. rewrite Rinv_r; lra.
    - apply Rinv_neq_0_compat. lra. }
  apply eq_IZR, Nat2Z.inj in Heq.
  apply label_eqb_true.
  now apply (@filter_length_all _ (fun y => label_eqb y a) g Heq).
Qed.

Lemma gini_term_nonneg :
  forall p : R, 0 < p <= 1 -> 0 <= p * (1 - p).
Proof. intros p Hp. apply Rmult_le_pos; lra. Qed.

Lemma entropy_term_nonneg :
  forall p : R, 0 < p <= 1 -> 0 <= - (p * ln p).
Proof.
  intros p Hp.
  assert (Hln : ln p <= 0).
  { destruct (Req_dec_T p 1) as [->|Hne]; [rewrite ln_1; lra|].
    rewrite <- ln_1. apply Rlt_le, ln_increasing; lra. }
  assert (H : 0 <= p * - ln p) by (apply Rmult_le_pos; lra). lra.
Qed.

Lemma gini_nonneg_zero :
  forall g : list label,
    0 <= gini (num := R) g /\
    (g <> [] -> gini (num := R) g = 0 ->
     forall x, In x g -> x = nth 0 g Undefined).
Proof.
  intros g. unfold gini.
  change (fold_left _ (Arrays.unique label_eqb g) (of_Z 0))
    with (fold_left (fun r a => r + frac_of (num := R) a g
                                    * (1 - frac_of (num := R) a g))
                    (Arrays.unique label_eqb g) 0).
  destruct (@fold_add_nonneg _
              (fun a => frac_of (num := R) a g * (1 - frac_of (num := R) a g))
              (Arrays.unique label_eqb g) 0) as [Hle Hzero].
  { intros a Ha. apply gini_term_nonneg, frac_of_range. now apply unique_In. }
  split; [exact Hle|]. intros Hg H0 x Hx.
  assert (Hhead : In (nth 0 g Undefined) g)
    by (destruct g; [contradiction | now left]).
  specialize (Hzero H0 (nth 0 g Undefined)
                (proj2 (unique_In g _) Hhead)).
  pose proof (@frac_of_range g _ Hhead) as Hr.
  apply (@frac_of_one g (nth 0 g Undefined) Hg); [|exact Hx].
  apply Rmult_integral in Hzero. destruct Hzero; lra.
Qed.

Lemma entropy_nonneg_zero :
  forall g : list label,
    0 <= entropy (num := R) g /\
    (g <> [] -> entropy (num := R) g = 0 ->
     forall x, In x g -> x = nth 0 g Undefined).
Proof.
  intros g. unfold entropy.
  change (fold_left _ (Arrays.unique label_eqb g) (of_Z 0))
    with (fold_left (fun r a => r + - (frac_of (num := R) a g
                                       * ln (frac_of (num := R) a g)))
                    (Arrays.unique label_eqb g) 0).
  destruct (@fold_add_nonneg _
              (fun a => - (frac_of (num := R) a g * ln (frac_of (num := R) a g)))
              (Arrays.unique label_eqb g) 0) as [Hle Hzero].
  { intros a Ha. apply entropy_term_nonneg, frac_of_range.
    now apply unique_In. }
  split; [exact Hle|]. intros Hg H0 x Hx.
  assert (Hhead : In (nth 0 g Undefined) g)
    by (destruct g; [contradiction | now left]).
  specialize (Hzero H0 (nth 0 g Undefined)
                (proj2 (unique_In g _) Hhead)).
  pose proof (@frac_of_range g _ Hhead) as Hr.
  apply (@frac_of_one g (nth 0 g Undefined) Hg); [|exact Hx].
  destruct (Req_dec_T (frac_of (num := R) (nth 0 g Undefined) g) 1)
    as [E|Hne]; [exact E|].
  exfalso. apply (ln_neq_0 _ Hne); [lra|].
  assert (Hm : frac_of (num := R) (nth 0 g Undefined) g
               * ln (frac_of (num := R) (nth 0 g Undefined) g) = 0) by lra.
  apply Rmult_integral in Hm. destruct Hm; lra.
Qed.

Lemma pure_impurities :
  forall g : list label,
    g <> [] -> (forall x, In x g -> x = nth 0 g Undefined) ->
    gini (num := R) g = 0 /\ entropy (num := R) g = 0.
Proof.
  intros g Hg Hall. split.
  - unfold gini. rewrite (unique_single Hg Hall).
    cbn [fold_left]. rewrite (frac_of_single Hg Hall). simpl. ring.
  - unfold entropy. rewrite (unique_single Hg Hall).
    cbn [fold_left]. rewrite (frac_of_single Hg Hall). simpl.
    rewrite ln_1. ring.
Qed.

(** X4: over the real numbers, the Gini impurity and the entropy of a group
    are never negative, and for a non-empty group each of them is 0 exactly
    when all labels of the group are the same. *)
Theorem impurity_zero_iff_pure :
  forall g : list label,
    g <> [] ->
    0 <= gini (num := R) g /\
    0 <= entropy (num := R) g /\
    (gini (num := R) g = 0 <-> forall x, In x g -> x = nth 0 g Undefined) /\
    (entropy (num := R) g = 0 <-> forall x, In x g -> x = nth 0 g Undefined).
Proof.
  intros g Hg.
  destruct (gini_nonneg_zero g) as [G1 G2].
  destruct (entropy_nonneg_zero g) as [E1 E2].
  repeat split; auto; intros Hall; now apply pure_impurities.
Qed.

(** The stopping rule of [buildTree]: the impurity of the labels of a node
    is [=== 0] exactly for a non-empty group of one label. *)
Lemma is_zero_pure :
  forall (self : @DecisionTree.t R) (ySub : list label),
    is_zero (calculateImpurity self [ySub]) = true ->
    ySub <> [] /\ forall x, In x ySub -> x = nth 0 ySub Undefined.
Proof.
  intros self ySub H.
  assert (Hne : ySub <> []).
  { intros ->. unfold calculateImpurity in H.
    destruct (String.eqb _ "gini"); [discriminate|].
    destruct (String.eqb _ "entropy"); discriminate. }
  split; [exact Hne|].
  unfold calculateImpurity in H.
  destruct (String.eqb _ "gini").
  - rewrite (weighted_single gini Hne) in H. simpl in H.
    apply same_true in H. now apply gini_nonneg_zero.
  - destruct (String.eqb _ "entropy"); [|discriminate].
    rewrite (weighted_single entropy Hne) in H. simpl in H.
    apply same_true in H. now apply entropy_nonneg_zero.
Qed.

Lemma pure_is_zero :
  forall (self : @DecisionTree.t R) (ySub : list label),
    (criterion self = "gini"%string \/ criterion self = "entropy"%string) ->
    ySub <> [] -> (forall x, In x ySub -> x = nth 0 ySub Undefined) ->
    calculateImpurity self [ySub] = VNum 0.
Proof.
  intros self ySub Hc Hne Hall.
  destruct (pure_impurities Hne Hall) as [G E].
  unfold calculateImpurity. destruct Hc as [-> | ->].
  - change (calculateWeightedImpurity (num := R) [ySub] gini = VNum 0).
    rewrite (weighted_single gini Hne). now f_equal.
  - change (calculateWeightedImpurity (num := R) [ySub] entropy = VNum 0).
    rewrite (weighted_single entropy Hne). now f_equal.
Qed.

End Purity.

(** * What a trained tree predicts, in any arithmetic *)

Section TreeLabels.

Context {num : Type} {N : JSNumber num} {L : JSLog num}.

Import DecisionTree.

(** ** The majority label *)

Lemma fold_max_count :
  forall (cs : list (label * Z)) (c : label * Z),
    let best :=
      fold_left (fun r x => if (snd r <? snd x)%Z then x else r) cs c in
    In best (c :: cs) /\
    forall x, In x (c :: cs) -> (snd x <= snd best)%Z.
Proof.
  induction cs as [|d cs IH]; intros c; simpl.
  - split; [now left|]. intros x [<-|[]]. lia.
  - destruct (IH (if (snd c <? snd d)%Z then d else c)) as [Hin Hmax].
    simpl in Hin, Hmax. split.
    + destruct Hin as [Hin|Hin]; [|now right; right].
      rewrite <- Hin. destruct (snd c <? snd d)%Z; auto.
    + intros x Hx.
      assert (Hc : (snd c <= snd (if (snd c <? snd d)%Z then d else c))%Z)
        by (destruct (snd c <? snd d)%Z eqn:E;
            [apply Z.ltb_lt in E; lia | lia]).
      assert (Hd : (snd d <= snd (if (snd c <? snd d)%Z then d else c))%Z)
        by (destruct (snd c <? snd d)%Z eqn:E;
            [lia | apply Z.ltb_ge in E; lia]).
      pose proof (Hmax _ (or_introl eq_refl)) as H0.
      destruct Hx as [<-|[<-|Hx]]; [lia | lia |].
      apply Hmax. now right.
Qed.

Lemma valueCounts_In :
  forall (l : list label) (p : label) (c : Z),
    In (p, c) (Arrays.valueCounts label_eqb l) <->
    In p l /\ c = Arrays.count label_eqb p l.
Proof.
  intros l p c. unfold Arrays.valueCounts. rewrite in_map_iff. split.
  - intros (q & Hq & Hin). injection Hq as -> <-.
    split; [now apply unique_In | reflexivity].
  - intros [Hin ->]. exists p. split; [reflexivity | now apply unique_In].
Qed.

Lemma count_absent :
  forall (l : list label) (q : label),
    ~ In q l -> Arrays.count label_eqb q l = 0%Z.
Proof.
  intros l q Hq. unfold Arrays.count.
  destruct (filter (fun y => label_eqb y q) l) as [|x f] eqn:E;
    [reflexivity|].
  exfalso. apply Hq.
  assert (Hx : In x (filter (fun y => label_eqb y q) l))
    by (rewrite E; now left).
  apply filter_In in Hx. destruct Hx as [Hx Hxq].
  apply label_eqb_true in Hxq. now subst.
Qed.

Lemma count_nonneg :
  forall (l : list label) (q : label), (0 <= Arrays.count label_eqb q l)%Z.
Proof. intros l q. unfold Arrays.count. lia. Qed.

Lemma In_dec_label : forall (q : label) (l : list label), In q l \/ ~ In q l.
Proof.
  intros q l. induction l as [|x l [IH|IH]]; simpl.
  - now right.
  - left. now right.
  - destruct (label_eqb x q) eqn:E.
    + apply label_eqb_true in E. left. now left.
    + right. intros [H|H]; [|contradiction].
      apply label_eqb_true in H. congruence.
Qed.

Lemma majority_most_frequent :
  forall (ySub : list label),
    ySub <> [] -> exists p, majority ySub = Ok p /\ most_frequent p ySub.
Proof.
  intros ySub Hne. unfold majority.
  destruct (Arrays.valueCounts label_eqb ySub) as [|c cs] eqn:E.
  - exfalso. destruct ySub as [|a ySub]; [contradiction|].
    assert (Hin : In (a, Arrays.count label_eqb a (a :: ySub))
                     (Arrays.valueCounts label_eqb (a :: ySub)))
      by (apply valueCounts_In; split; [now left | reflexivity]).
    rewrite E in Hin. contradiction.
  - eexists. split; [reflexivity|].
    destruct (fold_max_count cs c) as [Hin Hmax].
    set (best := fold_left _ cs c) in *.
    rewrite <- E in Hin, Hmax.
    destruct best as [p n]. apply valueCounts_In in Hin.
    destruct Hin as [Hp ->]. simpl. split; [exact Hp|].
    intros q. destruct (In_dec_label q ySub) as [Hq|Hq].
    + apply (Hmax (q, Arrays.count label_eqb q ySub)).
      apply valueCounts_In. now split.
    + rewrite (@count_absent ySub q Hq). apply count_nonneg.
Qed.

(** ** Leaves predict labels of the training data *)

Lemma pure_nonempty :
  forall (self : DecisionTree.t) (ySub : list label),
    is_zero (calculateImpurity self [ySub]) = true -> ySub <> [].
Proof.
  intros self ySub H ->. unfold calculateImpurity in H.
  destruct (String.eqb _ "gini"); [discriminate|].
  destruct (String.eqb _ "entropy"); discriminate.
Qed.

Lemma group_labels_In :
  forall (XSub : list (list num)) (ySub : list label) (s : DataSplit),
    length XSub = length ySub ->
    valid_split XSub ySub s ->
    length (fst (features (groups s))) = length (fst (labels (groups s))) /\
    length (snd (features (groups s))) = length (snd (labels (groups s))) /\
    (forall l, In l (fst (labels (groups s))) -> In l ySub) /\
    (forall l, In l (snd (labels (groups s))) -> In l ySub).
Proof.
  intros XSub ySub s Hlen (Hg & _ & _).
  destruct (splitSamples_from_lengths XSub 0 ySub (feature s) (featureValue s))
    as (_ & _ & L1 & L2).
  destruct (splitSamples_from_aligned XSub 0 ySub (feature s) (featureValue s))
    as (Hr & _ & _ & A3 & A4).
  fold (splitSamples XSub ySub (feature s) (featureValue s)) in *.
  rewrite <- Hg in *. apply Forall_app in Hr. destruct Hr as [Hr1 Hr2].
  rewrite Forall_forall in Hr1, Hr2.
  repeat split; try congruence.
  - intros l Hl. rewrite A3 in Hl. apply in_map_iff in Hl.
    destruct Hl as (j & <- & Hj). apply nth_In. specialize (Hr1 j Hj). lia.
  - intros l Hl. rewrite A4 in Hl. apply in_map_iff in Hl.
    destruct Hl as (j & <- & Hj). apply nth_In. specialize (Hr2 j Hj). lia.
Qed.

Lemma buildTree_labels :
  forall fuel (self : DecisionTree.t) XSub ySub depth r root r',
    length XSub = length ySub ->
    buildTree fuel self XSub ySub depth r = (Ok root, r') ->
    forall x, In (walk root x) ySub.
Proof.
  induction fuel as [|fuel IH]; intros self XSub ySub depth r root r' Hlen;
    simpl; [discriminate|].
  destruct (is_zero _) eqn:Hz.
  - intros H; injection H as <- _. intros x. simpl.
    apply pure_nonempty in Hz. destruct ySub; [contradiction | now left].
  - destruct (_ && _).
    + destruct (majority ySub) as [p| |] eqn:Hm; try discriminate.
      intros H; injection H as <- _. intros x. simpl.
      assert (Hne : ySub <> []).
      { intros ->. unfold majority in Hm. simpl in Hm. discriminate. }
      destruct (majority_most_frequent Hne) as (q & Hq & Hin & _).
      rewrite Hm in Hq. injection Hq as ->. exact Hin.
    + destruct (findSplit self XSub ySub _ r) as [[[s|]|e0|] r1] eqn:Hs;
      try discriminate.
      apply findSplit_valid in Hs.
      destruct (group_labels_In Hlen Hs) as (L1 & L2 & I1 & I2).
      destruct (buildTree fuel self (fst (features (groups s))) _ _ r1)
        as [[nleft|e1|] r2] eqn:H1; try discriminate.
      destruct (buildTree fuel self (snd (features (groups s))) _ _ r2)
        as [[nright|e2|] r3] eqn:H2; try discriminate.
      intros H; injection H as <- _. intros x. simpl.
      destruct (lt_at x (feature s) (featureValue s)).
      * apply I1. eapply IH; [exact L1 | exact H1].
      * apply I2. eapply IH; [exact L2 | exact H2].
Qed.

Lemma train_walk_labels :
  forall (self self' : DecisionTree.t) X y r r',
    train self X y r = (Ok tt, self', r') ->
    exists root, tree self' = Some root /\ forall x, In (walk root x) y.
Proof.
  intros self self' X y r r' H. unfold train in H.
  destruct (negb (length X =? length y)%nat) eqn:Hlen; [discriminate|].
  apply negb_false_iff, Nat.eqb_eq in Hlen.
  destruct (buildTree _ _ X y 0 r) as [[root| e |] r1] eqn:Hb;
    try discriminate.
  injection H as <- _. exists root. split; [reflexivity|].
  eapply buildTree_labels; [exact Hlen | exact Hb].
Qed.

(** X5: a tree that [train] has completed predicts, for any sample
    whatever, one of the labels it was trained on. *)
Theorem predict_training_labels :
  forall (self self' : DecisionTree.t) X y r r' Xq ps,
    train self X y r = (Ok tt, self', r') ->
    predict self' Xq = Ok ps ->
    forall p, In p ps -> In p y.
Proof.
  intros self self' X y r r' Xq ps H Hp p Hin.
  apply train_walk_labels in H. destruct H as (root & Hroot & Hl).
  unfold predict in Hp. rewrite Hroot in Hp. injection Hp as <-.
  apply in_map_iff in Hin. destruct Hin as (x & <- & _). apply Hl.
Qed.

(** ** An unsupported criterion *)

Lemma buildTree_null_never_completes :
  forall fuel (self : DecisionTree.t) XSub ySub depth r root,
    String.eqb (criterion self) "gini" = false ->
    String.eqb (criterion self) "entropy" = false ->
    (maxDepth self < 0)%Z ->
    fst (buildTree fuel self XSub ySub depth r) <> Ok root.
Proof.
  induction fuel as [|fuel IH]; intros self XSub ySub depth r root Hg He Hd;
    simpl; [discriminate|].
  unfold calculateImpurity. rewrite Hg, He. simpl is_zero. cbv iota.
  replace (maxDepth self >=? 0)%Z with false by (symmetry; lia).
  simpl andb. cbv iota.
  destruct (findSplit self XSub ySub _ r) as [[[s|]|e0|] r1];
      try discriminate.
  destruct (buildTree fuel self (fst (features (groups s))) _ _ r1)
    as [[nleft|e1|] r2] eqn:H1; simpl; try discriminate.
  exfalso.
  apply (IH self (fst (features (groups s))) (fst (labels (groups s)))
            (depth + 1)%Z r1 nleft Hg He Hd).
  now rewrite H1.
Qed.

(** X6: with a criterion other than ['gini'] and ['entropy'] and without a
    maximal depth, [train] never completes: whatever the data, of matching
    lengths, it throws. What it throws is a [TypeError] when every row has
    the features that the sampler is asked for. *)
Theorem train_unsupported_criterion :
  forall (self : DecisionTree.t) X y r,
    String.eqb (criterion self) "gini" = false ->
    String.eqb (criterion self) "entropy" = false ->
    (maxDepth self < 0)%Z ->
    length X = length y ->
    let count :=
      count_of (Some (resolveNumFeatures (numFeatures self)
                        (nth_error (Arrays.getShape X) 1))) in
    let outcome := fst (fst (train self X y r)) in
    (exists e, outcome = Throw e) /\
    (Forall (fun x => (count <= length x)%nat) X ->
     outcome = Throw TypeError).
Proof.
  intros self X y r Hg He Hd Hlen count outcome. subst outcome.
  destruct (@train_runs_buildTree _ _ _ self X y r Hlen) as [-> _].
  match goal with
  | |- context [buildTree ?f ?s ?a ?b ?d ?r0] =>
      pose proof (@buildTree_fuel _ _ _ f s a b d r0 ltac:(lia)) as Hf;
      pose proof (@buildTree_throws _ _ _ f s a b d r0) as Ht;
      pose proof (fun root =>
                    @buildTree_null_never_completes f s a b d r0 root
                      Hg He Hd) as Hn;
      destruct (buildTree f s a b d r0) as [[root| e |] r']
  end; cbn [fst] in Hf, Ht, Hn |- *.
  - exfalso. now apply (Hn root).
  - split; [now exists e|]. intros Hall.
    destruct (Ht e eq_refl) as [->|(_ & x & Hx & Hlt)]; [reflexivity|].
    rewrite Forall_forall in Hall. specialize (Hall x Hx).
    cbn [numFeaturesInt with_numFeaturesInt] in Hlt. fold count in Hlt. lia.
  - congruence.
Qed.

End TreeLabels.

(** * Trees grown in exact arithmetic *)

Section ExactTrees.

Local Open Scope R_scope.

Import DecisionTree.

Lemma single_label_run :
  forall (self : @DecisionTree.t R) X y r a,
    (criterion self = "gini"%string \/ criterion self = "entropy"%string) ->
    length X = length y ->
    y <> [] ->
    (forall l, In l y -> l = a) ->
    train self X y r =
    (Ok tt,
     with_tree (with_numFeaturesInt self
                  (resolveNumFeatures (numFeatures self)
                     (nth_error (Arrays.getShape X) 1)))
               (leaf (VNum 0) a),
     r).
Proof.
  intros self X y r a Hc Hlen Hne Hall. unfold train.
  apply Nat.eqb_eq in Hlen. rewrite Hlen. simpl negb. cbv iota.
  set (self1 := with_numFeaturesInt self _).
  assert (Hhead : nth 0 y Undefined = a)
    by (apply Hall; destruct y; [contradiction | now left]).
  assert (Himp : calculateImpurity self1 [y] = VNum 0).
  { apply pure_is_zero; [exact Hc | exact Hne |].
    intros x Hx. rewrite Hhead. now apply Hall. }
  cbn [buildTree]. rewrite Himp.
  assert (Hz : is_zero (num := R) (VNum 0) = true)
    by (simpl; now apply same_true).
  rewrite Hz, Hhead. reflexivity.
Qed.

(** X7: over the real numbers, with the Gini or the entropy criterion,
    training on data whose labels are all the same gives a tree that is a
    single leaf with impurity 0 predicting that label, whatever the maximal
    depth and the number of features, and draws nothing from the random
    source. *)
Theorem train_single_label :
  forall (self : @DecisionTree.t R) X y r a,
    (criterion self = "gini"%string \/ criterion self = "entropy"%string) ->
    length X = length y ->
    y <> [] ->
    (forall l, In l y -> l = a) ->
    exists self',
      train self X y r = (Ok tt, self', r) /\
      tree self' = Some (leaf (VNum 0) a).
Proof.
  intros self X y r a Hc Hlen Hne Hall.
  eexists. split.
  - apply single_label_run; eassumption.
  - reflexivity.
Qed.

(** ** A tree without a maximal depth separates its training data *)

Lemma nth_map_in :
  forall (A B : Type) (f : A -> B) (l : list A) (k : nat) (d : A) (e : B),
    (k < length l)%nat -> nth k (map f l) e = f (nth k l d).
Proof.
  intros A B f l k d e Hk.
  rewrite nth_indep with (d' := f d) by (rewrite length_map; exact Hk).
  apply map_nth.
Qed.

Lemma buildTree_memorizes :
  forall fuel (self : @DecisionTree.t R) XSub ySub depth r root r',
    (maxDepth self < 0)%Z ->
    length XSub = length ySub ->
    buildTree fuel self XSub ySub depth r = (Ok root, r') ->
    forall j, (j < length XSub)%nat ->
              walk root (nth j XSub []) = nth j ySub Undefined.
Proof.
  induction fuel as [|fuel IH];
    intros self XSub ySub depth r root r' Hd Hlen; simpl; [discriminate|].
  destruct (is_zero _) eqn:Hz.
  - intros H; injection H as <- _. intros j Hj. simpl.
    apply is_zero_pure in Hz. destruct Hz as [_ Hall].
    symmetry. apply Hall, nth_In. lia.
  - replace (maxDepth self >=? 0)%Z with false by (symmetry; lia).
    simpl andb. cbv iota.
    destruct (findSplit self XSub ySub _ r) as [[[s|]|e0|] r1] eqn:Hs;
      try discriminate.
    apply findSplit_valid in Hs.
    destruct (group_labels_In Hlen Hs) as (L1 & L2 & _ & _).
    destruct Hs as (Hg & _ & _).
    destruct (splitSamples_from_features XSub 0 ySub (feature s)
                (featureValue s)) as [F1 F2].
    destruct (splitSamples_from_aligned XSub 0 ySub (feature s)
                (featureValue s)) as (_ & A1 & A2 & A3 & A4).
    pose proof (splitSamples_from_indices XSub 0 ySub (feature s)
                  (featureValue s)) as P.
    fold (splitSamples XSub ySub (feature s) (featureValue s)) in *.
    rewrite <- Hg in *.
    destruct (buildTree fuel self (fst (features (groups s))) _ _ r1)
      as [[nleft|e1|] r2] eqn:H1; try discriminate.
    destruct (buildTree fuel self (snd (features (groups s))) _ _ r2)
      as [[nright|e2|] r3] eqn:H2; try discriminate.
    intros H; injection H as <- _. intros j Hj. simpl.
    assert (Hin : In j (fst (indices (groups s)) ++ snd (indices (groups s))))
      by (apply (Permutation_in _ (Permutation_sym P)), in_seq; lia).
    apply in_app_or in Hin. destruct Hin as [Hin|Hin].
    + destruct (In_nth _ _ 0%nat Hin) as (k & Hk & Hnth).
      assert (Hx : nth k (fst (features (groups s))) [] = nth j XSub []).
      { rewrite A1, (@nth_map_in _ _ _ _ k 0%nat [] Hk), Hnth.
        now rewrite Nat.sub_0_r. }
      assert (Hl : nth k (fst (labels (groups s))) Undefined
                   = nth j ySub Undefined)
        by (rewrite A3, (@nth_map_in _ _ _ _ k 0%nat Undefined Hk), Hnth;
            reflexivity).
      assert (Hk' : (k < length (fst (features (groups s))))%nat)
        by (rewrite A1, length_map; exact Hk).
      assert (Hlt : lt_at (nth j XSub []) (feature s) (featureValue s) = true).
      { rewrite <- Hx.
        assert (Hf : In (nth k (fst (features (groups s))) [])
                        (fst (features (groups s)))) by now apply nth_In.
        rewrite F1 in Hf at 2. apply filter_In in Hf. tauto. }
      rewrite Hlt, <- Hx, <- Hl.
      eapply IH; [exact Hd | exact L1 | exact H1 | exact Hk'].
    + destruct (In_nth _ _ 0%nat Hin) as (k & Hk & Hnth).
      assert (Hx : nth k (snd (features (groups s))) [] = nth j XSub []).
      { rewrite A2, (@nth_map_in _ _ _ _ k 0%nat [] Hk), Hnth.
        now rewrite Nat.sub_0_r. }
      assert (Hl : nth k (snd (labels (groups s))) Undefined
                   = nth j ySub Undefined)
        by (rewrite A4, (@nth_map_in _ _ _ _ k 0%nat Undefined Hk), Hnth;
            reflexivity).
      assert (Hk' : (k < length (snd (features (groups s))))%nat)
        by (rewrite A2, length_map; exact Hk).
      assert (Hlt : lt_at (nth j XSub []) (feature s) (featureValue s) = false).
      { rewrite <- Hx.
        assert (Hf : In (nth k (snd (features (groups s))) [])
                        (snd (features (groups s)))) by now apply nth_In.
        rewrite F2 in Hf at 2. apply filter_In in Hf.
        now apply negb_true_iff. }
      rewrite Hlt, <- Hx, <- Hl.
      eapply IH; [exact Hd | exact L2 | exact H2 | exact Hk'].
Qed.

(** X8: over the real numbers, a tree trained without a maximal depth
    predicts for its own training samples exactly their labels. *)
Theorem train_memorizes :
  forall (self self' : @DecisionTree.t R) X y r r',
    (maxDepth self < 0)%Z ->
    train self X y r = (Ok tt, self', r') ->
    predict self' X = Ok y.
Proof.
  intros self self' X y r r' Hd H. unfold train in H.
  destruct (negb (length X =? length y)%nat) eqn:Hlen; [discriminate|].
  apply negb_false_iff, Nat.eqb_eq in Hlen.
  destruct (buildTree _ _ X y 0 r) as [[root| e |] r1] eqn:Hb;
    try discriminate.
  injection H as <- _. unfold predict. simpl. f_equal.
  apply nth_ext with (d := walk root []) (d' := Undefined).
  - now rewrite length_map.
  - intros j Hj. rewrite length_map in Hj.
    rewrite (@nth_map_in _ _ (walk root) X j [] (walk root []) Hj).
    eapply buildTree_memorizes; [| exact Hlen | exact Hb | exact Hj].
    exact Hd.
Qed.

(** ** A tree of depth zero *)

Lemma pure_most_frequent :
  forall (y : list label),
    y <> [] -> (forall x, In x y -> x = nth 0 y Undefined) ->
    most_frequent (nth 0 y Undefined) y.
Proof.
  intros y Hne Hall. split.
  - destruct y; [contradiction | now left].
  - intros q. unfold Arrays.count. rewrite (filter_all _ Hall).
    apply Nat2Z.inj_le, filter_length_le.
Qed.

(** X9: over the real numbers, with maximal depth 0 [train] completes on
    any non-empty data without a draw from the random source, and the tree
    is a single leaf that predicts a label occurring most often among the
    training labels. *)
Theorem train_depth_zero :
  forall (self : @DecisionTree.t R) X y r,
    maxDepth self = 0%Z ->
    length X = length y ->
    y <> [] ->
    exists self' impurity p,
      train self X y r = (Ok tt, self', r) /\
      tree self' = Some (leaf impurity p) /\
      most_frequent p y.
Proof.
  intros self X y r Hd Hlen Hne. unfold train.
  apply Nat.eqb_eq in Hlen. rewrite Hlen. simpl negb. cbv iota.
  set (self1 := with_numFeaturesInt self _).
  cbn [buildTree].
  destruct (is_zero (calculateImpurity self1 [y])) eqn:Hz.
  - apply is_zero_pure in Hz. destruct Hz as [_ Hall].
    do 3 eexists. split; [reflexivity|]. split; [reflexivity|].
    now apply pure_most_frequent.
  - replace (maxDepth self1) with 0%Z by (symmetry; exact Hd).
    simpl andb. cbv iota.
    destruct (majority_most_frequent Hne) as (p & Hp & Hm).
    rewrite Hp. do 3 eexists. split; [reflexivity|]. split; [reflexivity|].
    exact Hm.
Qed.

End ExactTrees.

(** * The split that [findSplit] returns *)

Section SplitSearch.

Context {num : Type} {N : JSNumber num} {L : JSLog num}.

Import DecisionTree.


End SplitSearch.

Section SplitSearchExact.

Local Open Scope R_scope.

Import DecisionTree.

Variable self : @DecisionTree.t R.
Variable XSub : list (list R).
Variable ySub : list label.
Variable baseImpurity : jsval R.




End SplitSearchExact.

(** * Forests, in any arithmetic *)

Section Forests.

Context {num : Type} {N : JSNumber num} {L : JSLog num}.

(** ** The trees of a forest *)

(** A tree with the options of a forest. *)
Lemma train_keeps_options :
  forall (self self' : @DecisionTree.t num) X y r outcome r',
    DecisionTree.train self X y r = (outcome, self', r') ->
    DecisionTree.criterion self' = DecisionTree.criterion self /\
    DecisionTree.numFeatures self' = DecisionTree.numFeatures self /\
    DecisionTree.maxDepth self' = DecisionTree.maxDepth self.
Proof.
  intros self self' X y r outcome r' H. unfold DecisionTree.train in H.
  destruct (negb _); [injection H as _ <- _; auto|].
  destruct (DecisionTree.buildTree _ _ X y 0 r) as [[root| e |] r1];
    injection H as _ <- _; auto.
Qed.

Lemma trainLoop_trees :
  forall iterations (self : @RandomForest.t num) X y ts r ts' r',
    RandomForest.trainLoop iterations self X y ts r = (Ok tt, ts', r') ->
    exists added,
      ts' = ts ++ added /\
      length added = iterations /\
      Forall (fun t =>
                trained t /\
                DecisionTree.criterion t = RandomForest.criterion self /\
                DecisionTree.numFeatures t = RandomForest.numFeatures self /\
                DecisionTree.maxDepth t = RandomForest.maxDepth self) added.
Proof.
  induction iterations as [|n IH]; intros self X y ts r ts' r' H; simpl in H.
  - injection H as <- _. exists []. rewrite app_nil_r. auto.
  - destruct (RandomForest.selectSamples self X y r)
      as [[[treeX treeY]| e |] r1]; try discriminate.
    destruct (DecisionTree.train _ treeX treeY r1)
      as [[[[]| e |] tree1] r2] eqn:Ht; try discriminate.
    apply IH in H. destruct H as (added & -> & Hlen & Hall).
    exists (tree1 :: added). rewrite <- app_assoc. simpl.
    repeat split; [congruence|].
    constructor; [|exact Hall].
    split; [now apply train_ok_tree in Ht|].
    apply train_keeps_options in Ht. simpl in Ht. exact Ht.
Qed.

(** X11: after a [train] of a forest that completed, the forest holds as
    many trees as [numTrees] says (none when it is not positive), each of
    them trained, with the criterion, the number of features and the maximal
    depth of the forest. *)
Theorem forest_train_trees :
  forall (self self' : @RandomForest.t num) X y r r',
    RandomForest.train self X y r = (Ok tt, self', r') ->
    exists ts,
      RandomForest.trees self' = Some ts /\
      length ts = Z.to_nat (RandomForest.numTrees self) /\
      Forall (fun t =>
                trained t /\
                DecisionTree.criterion t = RandomForest.criterion self /\
                DecisionTree.numFeatures t = RandomForest.numFeatures self /\
                DecisionTree.maxDepth t = RandomForest.maxDepth self) ts.
Proof.
  intros self self' X y r r' H. unfold RandomForest.train in H.
  destruct (negb _); [discriminate|].
  destruct (RandomForest.trainLoop _ self X y [] r) as [[outcome ts] r1] eqn:Hl.
  injection H as -> <- _.
  apply trainLoop_trees in Hl. destruct Hl as (added & -> & Hlen & Hall).
  exists added. simpl. auto.
Qed.

(** ** The vote *)

Lemma vote_most_frequent :
  forall ps : list label, ps <> [] -> most_frequent (RandomForest.vote ps) ps.
Proof.
  intros ps Hne. unfold RandomForest.vote.
  destruct (fold_max_count (Arrays.valueCounts label_eqb ps) (Lab (-1), (-1)%Z))
    as [Hin Hmax].
  set (best := fold_left _ _ _) in *.
  destruct ps as [|a ps]; [contradiction|].
  assert (Ha : In (a, Arrays.count label_eqb a (a :: ps))
                  (Arrays.valueCounts label_eqb (a :: ps)))
    by (apply valueCounts_In; split; [now left | reflexivity]).
  assert (Hpos : (1 <= Arrays.count label_eqb a (a :: ps))%Z).
  { unfold Arrays.count. simpl. rewrite label_eqb_refl. simpl length. lia. }
  pose proof (Hmax _ (or_intror Ha)) as Hbest. simpl in Hbest.
  destruct Hin as [Hin|Hin]; [rewrite <- Hin in Hbest; simpl in Hbest; lia|].
  destruct best as [p n]. apply valueCounts_In in Hin.
  destruct Hin as [Hp ->]. simpl. split; [exact Hp|].
  intros q. destruct (In_dec_label q (a :: ps)) as [Hq|Hq].
  - apply (Hmax (q, Arrays.count label_eqb q (a :: ps))). right.
    apply valueCounts_In. now split.
  - rewrite (@count_absent (a :: ps) q Hq). apply count_nonneg.
Qed.

Lemma predictions_length :
  forall (ts : list (@DecisionTree.t num)) x ps,
    RandomForest.predictions ts x = Ok ps -> length ps = length ts.
Proof.
  induction ts as [|t ts IH]; intros x ps H; simpl in H.
  - injection H as <-. reflexivity.
  - destruct (DecisionTree.predictSample t x); try discriminate.
    destruct (RandomForest.predictions ts x) as [qs| |] eqn:E;
      try discriminate.
    injection H as <-. simpl. f_equal. now apply (IH x).
Qed.

(** X12: a forest whose training completed predicts, for any sample, a
    label that most of its trees predict: no other label has more votes.
    A forest without trees predicts -1. *)
Theorem forest_vote :
  forall (self self' : @RandomForest.t num) X y r r' x,
    RandomForest.train self X y r = (Ok tt, self', r') ->
    exists ts ps,
      RandomForest.trees self' = Some ts /\
      RandomForest.predictions ts x = Ok ps /\
      length ps = Z.to_nat (RandomForest.numTrees self) /\
      RandomForest.predictSample self' x = Ok (RandomForest.vote ps) /\
      ((RandomForest.numTrees self <= 0)%Z ->
       RandomForest.vote ps = Lab (-1)) /\
      ((0 < RandomForest.numTrees self)%Z ->
       most_frequent (RandomForest.vote ps) ps).
Proof.
  intros self self' X y r r' x H.
  unfold RandomForest.train in H.
  destruct (negb _); [discriminate|].
  destruct (RandomForest.trainLoop _ self X y [] r) as [[outcome ts] r1] eqn:Hl.
  injection H as -> <- _.
  pose proof (trainLoop_trained _ _ _ _ _ (Forall_nil _) Hl) as Htr.
  apply trainLoop_trees in Hl. destruct Hl as (added & -> & Hlen & _).
  simpl app in *.
  destruct (predictions_trained x Htr) as [ps Hps].
  pose proof (predictions_length _ _ Hps) as Hpl.
  exists added, ps. simpl.
  split; [reflexivity|]. split; [exact Hps|]. split; [congruence|].
  split; [|split].
  - unfold RandomForest.predictSample, RandomForest.predictSampleIn. simpl.
    now rewrite Hps.
  - intros Hn. replace (Z.to_nat (RandomForest.numTrees self)) with 0%nat in Hlen
      by lia.
    destruct ps; [reflexivity | simpl in Hpl; lia].
  - intros Hn. apply vote_most_frequent. intros ->. simpl in Hpl. lia.
Qed.

(** ** The labels a forest predicts *)

Lemma sample_with_In :
  forall (A : Type) (k : nat) (input : list A) (r : rng) (x : A),
    In x (fst (Random.sample_with k input r)) -> In x input.
Proof.
  intros A k. induction k as [|k IH]; intros input r x; simpl.
  - intros [].
  - destruct input as [|a input]; [intros []|].
    destruct (draw r) as [d r1].
    destruct (Random.sample_with k (a :: input) r1) as [rest r2] eqn:E.
    cbn [fst]. intros [<-|Hin].
    + apply nth_In, Nat.mod_upper_bound. simpl. lia.
    + apply (IH (a :: input) r1). now rewrite E.
Qed.

Lemma selectSamples_labels :
  forall (self : @RandomForest.t num) X y r treeX treeY r1,
    length X = length y ->
    RandomForest.selectSamples self X y r = (Ok (treeX, treeY), r1) ->
    forall l, In l treeY -> In l y.
Proof.
  intros self X y r treeX treeY r1 Hlen H l Hl.
  unfold RandomForest.selectSamples in H.
  destruct (RandomForest.bootstrap self).
  - unfold Random.sample in H. simpl in H.
    destruct (Random.sample_with (length X) (seq 0 (length X)) r)
      as [treeSamples r2] eqn:E.
    injection H as _ <- _. apply in_map_iff in Hl.
    destruct Hl as (j & <- & Hj). apply nth_In.
    assert (Hin : In j (seq 0 (length X)))
      by (apply (@sample_with_In _ (length X) _ r); now rewrite E).
    apply in_seq in Hin. lia.
  - injection H as _ <- _. exact Hl.
Qed.

Lemma trainLoop_labels :
  forall iterations (self : @RandomForest.t num) X y ts r outcome ts' r',
    length X = length y ->
    Forall (fun t => forall root,
                DecisionTree.tree t = Some root ->
                forall x, In (DecisionTree.walk root x) y) ts ->
    RandomForest.trainLoop iterations self X y ts r = (outcome, ts', r') ->
    Forall (fun t => forall root,
                DecisionTree.tree t = Some root ->
                forall x, In (DecisionTree.walk root x) y) ts'.
Proof.
  induction iterations as [|n IH];
    intros self X y ts r outcome ts' r' Hlen Hts H; simpl in H.
  - injection H as _ <- _. exact Hts.
  - destruct (RandomForest.selectSamples self X y r)
      as [[[treeX treeY]| e |] r1] eqn:Hs;
      [|injection H as _ <- _; exact Hts | injection H as _ <- _; exact Hts].
    destruct (DecisionTree.train _ treeX treeY r1)
      as [[[[]| e |] tree1] r2] eqn:Ht.
    + eapply IH; [exact Hlen | | exact H].
      apply Forall_app. split; [exact Hts|]. constructor; [|constructor].
      apply train_walk_labels in Ht. destruct Ht as (root & Hroot & Hl).
      intros root' Hroot' x. rewrite Hroot in Hroot'. injection Hroot' as <-.
      apply (selectSamples_labels _ _ _ _ Hlen Hs), Hl.
    + injection H as _ <- _. exact Hts.
    + injection H as _ <- _. exact Hts.
Qed.

Lemma predictions_walk :
  forall (ts : list (@DecisionTree.t num)) x ps,
    RandomForest.predictions ts x = Ok ps ->
    forall p, In p ps ->
              exists t root,
                In t ts /\ DecisionTree.tree t = Some root /\
                p = DecisionTree.walk root x.
Proof.
  induction ts as [|t ts IH]; intros x ps H p Hp; simpl in H.
  - injection H as <-. contradiction.
  - unfold DecisionTree.predictSample in H.
    destruct (DecisionTree.tree t) as [root|] eqn:Hroot; [|discriminate].
    destruct (RandomForest.predictions ts x) as [qs| |] eqn:E;
      try discriminate.
    injection H as <-. destruct Hp as [<-|Hp].
    + exists t, root. split; [now left | now split].
    + destruct (IH x qs E p Hp) as (t' & root' & Hin & Hr & ->).
      exists t', root'. split; [now right | now split].
Qed.

Lemma predictAll_In :
  forall (ts : list (@DecisionTree.t num)) Xq ps,
    RandomForest.predictAll ts Xq = Ok ps ->
    forall p, In p ps ->
              exists x qs,
                RandomForest.predictions ts x = Ok qs /\
                p = RandomForest.vote qs.
Proof.
  intros ts Xq. induction Xq as [|x Xq IH]; intros ps H p Hp; simpl in H.
  - injection H as <-. contradiction.
  - unfold RandomForest.predictSampleIn in H.
    destruct (RandomForest.predictions ts x) as [qs| |] eqn:E;
      try discriminate.
    destruct (RandomForest.predictAll ts Xq) as [rest| |]; try discriminate.
    injection H as <-. destruct Hp as [<-|Hp].
    + now exists x, qs.
    + now apply (IH rest).
Qed.

(** X13: a forest of at least one tree whose training completed predicts,
    for any sample whatever, one of the labels it was trained on, with
    bootstrapping or without. *)
Theorem forest_training_labels :
  forall (self self' : @RandomForest.t num) X y r r' Xq ps,
    (0 < RandomForest.numTrees self)%Z ->
    RandomForest.train self X y r = (Ok tt, self', r') ->
    RandomForest.predict self' Xq = Ok ps ->
    forall p, In p ps -> In p y.
Proof.
  intros self self' X y r r' Xq ps Hn H Hp p Hin.
  unfold RandomForest.train in H.
  destruct (negb (length X =? length y)%nat) eqn:Hlen; [discriminate|].
  apply negb_false_iff, Nat.eqb_eq in Hlen.
  destruct (RandomForest.trainLoop _ self X y [] r) as [[outcome ts] r1] eqn:Hl.
  injection H as -> <- _.
  assert (Hlab : Forall (fun t => forall root,
                             DecisionTree.tree t = Some root ->
                             forall x, In (DecisionTree.walk root x) y) ts)
    by (eapply trainLoop_labels; [exact Hlen | apply Forall_nil | exact Hl]).
  apply trainLoop_trees in Hl. destruct Hl as (added & -> & Hadded & _).
  simpl app in *. unfold RandomForest.predict in Hp. simpl in Hp.
  destruct (predictAll_In _ _ Hp _ Hin) as (x & qs & Hqs & ->).
  assert (Hne : qs <> []).
  { intros ->. apply predictions_length in Hqs. simpl in Hqs. lia. }
  destruct (vote_most_frequent Hne) as [Hv _].
  destruct (predictions_walk _ _ Hqs _ Hv) as (t & root & Ht & Hroot & ->).
  rewrite Forall_forall in Hlab. now apply (Hlab t Ht root Hroot).
Qed.

End Forests.

(** * Training again *)

Section Retraining.

Context {num : Type} {N : JSNumber num} {L : JSLog num}.

Import DecisionTree.

Lemma fold_left_ext :
  forall (A B : Type) (f g : A -> B -> A) (l : list B) (a : A),
    (forall a x, f a x = g a x) -> fold_left f l a = fold_left g l a.
Proof.
  intros A B f g l. induction l as [|x l IH]; intros a H; simpl.
  - reflexivity.
  - rewrite H. now apply IH.
Qed.

Lemma calculateImpurity_options :
  forall (s1 s2 : DecisionTree.t) groups0,
    criterion s1 = criterion s2 ->
    calculateImpurity s1 groups0 = calculateImpurity s2 groups0.
Proof. intros s1 s2 groups0 H. unfold calculateImpurity. now rewrite H. Qed.

Lemma findSplit_options :
  forall (s1 s2 : DecisionTree.t) XSub ySub baseImpurity r,
    criterion s1 = criterion s2 ->
    numFeaturesInt s1 = numFeaturesInt s2 ->
    findSplit s1 XSub ySub baseImpurity r
    = findSplit s2 XSub ySub baseImpurity r.
Proof.
  intros s1 s2 XSub ySub baseImpurity r Hc Hn. unfold findSplit.
  rewrite Hn. destruct (Arrays.transpose XSub) as [XSubT|e|]; try reflexivity.
  destruct (Random.sample _ _ false r) as [[fIndices|e|] r1]; try reflexivity.
  f_equal. f_equal. f_equal. apply fold_left_ext. intros best fInd.
  apply fold_left_ext. intros best' v. unfold considerSplit.
  now rewrite (@calculateImpurity_options s1 s2 _ Hc).
Qed.

Lemma buildTree_options :
  forall fuel (s1 s2 : DecisionTree.t) XSub ySub depth r,
    criterion s1 = criterion s2 ->
    maxDepth s1 = maxDepth s2 ->
    numFeaturesInt s1 = numFeaturesInt s2 ->
    buildTree fuel s1 XSub ySub depth r = buildTree fuel s2 XSub ySub depth r.
Proof.
  induction fuel as [|fuel IH]; intros s1 s2 XSub ySub depth r Hc Hd Hn;
    simpl; [reflexivity|].
  rewrite (@calculateImpurity_options s1 s2 _ Hc), Hd.
  rewrite (@findSplit_options s1 s2 XSub ySub _ r Hc Hn).
  destruct (is_zero _); [reflexivity|].
  destruct (_ && _); [reflexivity|].
  destruct (findSplit s2 XSub ySub _ r) as [[[s|]|e0|] r1]; try reflexivity.
  rewrite (IH s1 s2 _ _ _ r1 Hc Hd Hn).
  destruct (buildTree fuel s2 (fst (features (groups s))) _ _ r1)
    as [[nleft|e1|] r2]; try reflexivity.
  now rewrite (IH s1 s2 _ _ _ r2 Hc Hd Hn).
Qed.

(** X14: [train] does not look at what the model learned before. Two
    models with the same criterion, number of features and maximal depth,
    trained on the same data from the same state of the random source, end
    the same way; when the training completes they are the same model
    afterwards, and when it throws each keeps the tree it had. *)
Theorem train_again :
  forall (s1 s2 : DecisionTree.t) X y r,
    criterion s1 = criterion s2 ->
    numFeatures s1 = numFeatures s2 ->
    maxDepth s1 = maxDepth s2 ->
    let t1 := train s1 X y r in
    let t2 := train s2 X y r in
    fst (fst t1) = fst (fst t2) /\
    snd t1 = snd t2 /\
    (fst (fst t1) = Ok tt -> snd (fst t1) = snd (fst t2)) /\
    (fst (fst t1) <> Ok tt ->
     tree (snd (fst t1)) = tree s1 /\ tree (snd (fst t2)) = tree s2).
Proof.
  intros s1 s2 X y r Hc Hf Hd t1 t2. subst t1 t2. unfold train.
  destruct (negb _).
  - simpl. split; [reflexivity|]. split; [reflexivity|].
    split; [discriminate | auto].
  - rewrite Hf.
    set (n := resolveNumFeatures (numFeatures s2) _).
    rewrite (@buildTree_options (S (length X)) (with_numFeaturesInt s1 n)
               (with_numFeaturesInt s2 n) X y 0%Z r Hc Hd eq_refl).
    destruct (buildTree _ (with_numFeaturesInt s2 n) X y 0 r)
      as [[root| e |] r1]; simpl.
    + split; [reflexivity|]. split; [reflexivity|]. split.
      * intros _. unfold with_tree, with_numFeaturesInt. simpl.
        now rewrite Hc, Hf, Hd.
      * intros H. now contradiction H.
    + split; [reflexivity|]. split; [reflexivity|].
      split; [discriminate | auto].
    + split; [reflexivity|]. split; [reflexivity|].
      split; [discriminate | auto].
Qed.

End Retraining.

(** * Accuracy *)

Section Accuracy.

Context {num : Type} {N : JSNumber num}.

Lemma countCorrect_agreements :
  forall (yTrue before after : list label) (r : Z),
    length after = length yTrue ->
    Metrics.countCorrect (length before) yTrue (before ++ after) r =
    (r + agreements yTrue after)%Z.
Proof.
  induction yTrue as [|a rest IH]; intros before after r Hlen.
  - simpl. unfold agreements. simpl. lia.
  - destruct after as [|b after]; [discriminate|].
    simpl Metrics.countCorrect.
    rewrite app_nth2, Nat.sub_diag by lia. cbn [nth].
    replace (before ++ b :: after) with ((before ++ [b]) ++ after)
      by (rewrite <- app_assoc; reflexivity).
    replace (S (length before)) with (length (before ++ [b]))
      by (rewrite length_app; simpl; lia).
    rewrite IH by (simpl in Hlen; lia).
    unfold agreements. simpl.
    destruct (label_eqb a b); simpl length; lia.
Qed.

Lemma agreements_bounds :
  forall a b : list label,
    (0 <= agreements a b <= Z.of_nat (length a))%Z.
Proof.
  intros a b. unfold agreements. split; [lia|].
  apply Nat2Z.inj_le.
  etransitivity; [apply filter_length_le|].
  rewrite length_combine. lia.
Qed.

Lemma agreements_sym :
  forall a b : list label, agreements a b = agreements b a.
Proof.
  unfold agreements. induction a as [|x a IH]; intros [|y b]; simpl;
    try reflexivity.
  specialize (IH b).
  assert (E : label_eqb x y = label_eqb y x).
  { destruct (label_eqb x y) eqn:E1, (label_eqb y x) eqn:E2; try reflexivity.
    - apply label_eqb_true in E1. subst. rewrite label_eqb_refl in E2.
      discriminate.
    - apply label_eqb_true in E2. subst. rewrite label_eqb_refl in E1.
      discriminate. }
  rewrite E. destruct (label_eqb y x); simpl length; lia.
Qed.

Lemma agreements_all :
  forall a b : list label,
    length a = length b ->
    (agreements a b = Z.of_nat (length a) <-> a = b).
Proof.
  induction a as [|x a IH]; intros [|y b] Hlen; try discriminate.
  - unfold agreements. simpl. tauto.
  - simpl in Hlen. injection Hlen as Hlen. specialize (IH b Hlen).
    pose proof (agreements_bounds a b) as Hb.
    unfold agreements in *. simpl.
    destruct (label_eqb x y) eqn:E; simpl length.
    + apply label_eqb_true in E. subst y. split.
      * intros H. f_equal. apply IH. lia.
      * intros H. injection H as <-. assert (a = a) by reflexivity.
        apply IH in H. lia.
    + split; [lia|]. intros H. injection H as -> _.
      rewrite label_eqb_refl in E. discriminate.
Qed.

(** X15: [accuracy] throws when the numbers of true and of predicted labels
    differ. Otherwise, without normalisation, it returns the number of
    positions at which the two lists agree: a number between 0 and the
    number of labels, the same when the two lists are exchanged, and the
    number of labels exactly when the two lists are equal. *)
Theorem accuracy_count :
  forall (yTrue yPred : list label),
    (length yTrue <> length yPred ->
     Metrics.accuracy (num := num) yTrue yPred false =
     Throw (Error "Number of true labels must match number of predicted labels.")) /\
    (length yTrue = length yPred ->
     Metrics.accuracy (num := num) yTrue yPred false
     = Ok (VNum (of_Z (agreements yTrue yPred))) /\
     Metrics.accuracy (num := num) yPred yTrue false
     = Metrics.accuracy (num := num) yTrue yPred false /\
     (0 <= agreements yTrue yPred <= Z.of_nat (length yTrue))%Z /\
     (agreements yTrue yPred = Z.of_nat (length yTrue) <-> yTrue = yPred)).
Proof.
  intros yTrue yPred. split.
  - intros Hlen. unfold Metrics.accuracy.
    apply Nat.eqb_neq in Hlen. now rewrite Hlen.
  - intros Hlen.
    assert (Hacc : forall a b : list label,
               length a = length b ->
               Metrics.accuracy (num := num) a b false
               = Ok (VNum (of_Z (agreements a b)))).
    { intros a b H. unfold Metrics.accuracy.
      rewrite (proj2 (Nat.eqb_eq _ _) H). simpl negb. cbv iota.
      pose proof (@countCorrect_agreements a [] b 0%Z (eq_sym H)) as Hc.
      simpl in Hc. now rewrite Hc. }
    repeat split.
    + now apply Hacc.
    + rewrite (Hacc yPred yTrue (eq_sym Hlen)), (Hacc yTrue yPred Hlen).
      now rewrite agreements_sym.
    + apply agreements_bounds.
    + apply agreements_bounds.
    + now apply agreements_all.
    + now apply agreements_all.
Qed.

End Accuracy.

Section AccuracyExact.

Local Open Scope R_scope.

(** X16: over the real numbers, the normalised accuracy of a non-empty list
    of predictions is the number of agreements divided by the number of
    labels: it lies between 0 and 1, and is 1 exactly when every prediction
    is right. Of no predictions at all it is [NaN]. *)
Theorem accuracy_normalized :
  forall (yTrue yPred : list label),
    length yTrue = length yPred ->
    (yTrue = [] -> Metrics.accuracy (num := R) yTrue yPred true = Ok VNaN) /\
    (yTrue <> [] ->
     exists a : R,
       Metrics.accuracy (num := R) yTrue yPred true = Ok (VNum a) /\
       a = IZR (agreements yTrue yPred) / IZR (Z.of_nat (length yTrue)) /\
       0 <= a <= 1 /\
       (a = 1 <-> yTrue = yPred)).
Proof.
  intros yTrue yPred Hlen. split.
  - intros ->. destruct yPred; [reflexivity | discriminate].
  - intros Hne.
    pose proof (len_positive Hne) as Hpos.
    pose proof (agreements_bounds yTrue yPred) as [Hlo Hhi].
    apply IZR_le in Hlo, Hhi.
    exists (IZR (agreements yTrue yPred) / IZR (Z.of_nat (length yTrue))).
    split; [|split; [reflexivity|split]].
    + unfold Metrics.accuracy.
      rewrite (proj2 (Nat.eqb_eq _ _) Hlen). simpl negb. cbv iota.
      pose proof (@countCorrect_agreements yTrue [] yPred 0%Z (eq_sym Hlen))
        as Hc.
      simpl in Hc. rewrite Hc.
      destruct yTrue; [contradiction | reflexivity].
    + split.
      * apply Rmult_le_pos; [lra|]. apply Rlt_le, Rinv_0_lt_compat. lra.
      * apply Rmult_le_reg_r with (IZR (Z.of_nat (length yTrue))); [lra|].
        unfold Rdiv. rewrite Rmult_assoc, Rinv_l by lra. lra.
    + rewrite <- (@agreements_all yTrue yPred Hlen). split.
      * intros H. apply eq_IZR.
        apply Rmult_eq_reg_r with (/ IZR (Z.of_nat (length yTrue))).
        -- fold (Rdiv (IZR (agreements yTrue yPred))
                      (IZR (Z.of_nat (length yTrue)))).
           rewrite H, Rinv_r; lra.
        -- apply Rinv_neq_0_compat. lra.
      * intros ->. unfold Rdiv. apply Rinv_r. lra.
Qed.

End AccuracyExact.

(** * The listeners of a canvas *)

Section Listeners.

Context {num : Type}.

Lemma listeners_set_same :
  forall (self : @Canvas.t num) l ls,
    Canvas.listeners (Canvas.set_listeners self l ls) l = Some ls.
Proof. intros self l ls. simpl. now rewrite String.eqb_refl. Qed.

Lemma listeners_set_other :
  forall (self : @Canvas.t num) l l' ls,
    l' <> l ->
    Canvas.listeners (Canvas.set_listeners self l ls) l'
    = Canvas.listeners self l'.
Proof.
  intros self l l' ls Hne. simpl.
  destruct (String.eqb l' l) eqn:E; [|reflexivity].
  apply String.eqb_eq in E. contradiction.
Qed.

Lemma filter_map_calls :
  forall (A : Type) (args : A) (cb : Canvas.callback)
         (ls : list Canvas.callback),
    map (fun listener => (listener, args))
        (filter (fun x => negb (Nat.eqb x cb)) ls) =
    filter (fun c => negb (Nat.eqb (fst c) cb))
           (map (fun listener => (listener, args)) ls).
Proof.
  intros A args cb ls. induction ls as [|x ls IH]; simpl.
  - reflexivity.
  - destruct (Nat.eqb x cb); simpl; now rewrite IH.
Qed.

(** X17: the listeners of a canvas. After [addListener], [emit] for the
    label returns true and calls the listeners it called before and then
    the new one. After [removeListener], [emit] for the label calls the
    listeners it called before except every registration of the removed
    one, and returns what it returned before. Neither changes what [emit]
    does for another label. When a listener is added and removed again,
    [emit] returns true even if it has no listener left to call. *)
Theorem listeners_emit :
  forall (A : Type) (self : @Canvas.t num) (l : string)
         (cb : Canvas.callback) (args : A),
    Canvas.emit (Canvas.addListener self l cb) l args
    = (true, snd (Canvas.emit self l args) ++ [(cb, args)]) /\
    Canvas.emit (Canvas.removeListener self l cb) l args
    = (fst (Canvas.emit self l args),
       filter (fun c => negb (Nat.eqb (fst c) cb))
              (snd (Canvas.emit self l args))) /\
    Canvas.emit (Canvas.removeListener (Canvas.addListener self l cb) l cb)
                l args
    = (true,
       filter (fun c => negb (Nat.eqb (fst c) cb))
              (snd (Canvas.emit self l args))) /\
    (forall l', l' <> l ->
                Canvas.emit (Canvas.addListener self l cb) l' args
                = Canvas.emit self l' args /\
                Canvas.emit (Canvas.removeListener self l cb) l' args
                = Canvas.emit self l' args).
Proof.
  intros A self l cb args.
  assert (Hadd : Canvas.emit (Canvas.addListener self l cb) l args
                 = (true, snd (Canvas.emit self l args) ++ [(cb, args)])).
  { unfold Canvas.emit, Canvas.addListener.
    destruct (Canvas.listeners self l) as [ls|];
      rewrite listeners_set_same; simpl; [|reflexivity].
    now rewrite map_app. }
  assert (Hrem : forall c : @Canvas.t num,
             Canvas.emit (Canvas.removeListener c l cb) l args
             = (fst (Canvas.emit c l args),
                filter (fun x => negb (Nat.eqb (fst x) cb))
                       (snd (Canvas.emit c l args)))).
  { intros c. unfold Canvas.emit, Canvas.removeListener.
    destruct (Canvas.listeners c l) as [ls|] eqn:E.
    - rewrite listeners_set_same. simpl. now rewrite filter_map_calls.
    - rewrite E. reflexivity. }
  split; [exact Hadd|]. split; [apply Hrem|]. split.
  - rewrite Hrem, Hadd. simpl. f_equal.
    rewrite filter_app. simpl. rewrite Nat.eqb_refl. simpl.
    now rewrite app_nil_r.
  - intros l' Hne. split.
    + unfold Canvas.emit, Canvas.addListener.
      destruct (Canvas.listeners self l);
        now rewrite listeners_set_other by exact Hne.
    + unfold Canvas.emit, Canvas.removeListener.
      destruct (Canvas.listeners self l); [|reflexivity].
      now rewrite listeners_set_other by exact Hne.
Qed.

End Listeners.

(** * The coordinates of a canvas *)

Section Coordinates.

Local Open Scope R_scope.

Lemma round_trip_exact :
  forall (self : @Canvas.t R) (x y f1 f2 : R),
    Canvas.width self <> 0 ->
    Canvas.height self <> 0 ->
    Canvas.x1 (Canvas.options self) <> Canvas.x2 (Canvas.options self) ->
    Canvas.y1 (Canvas.options self) <> Canvas.y2 (Canvas.options self) ->
    (let (g1, g2) := Canvas.convertCanvasCoordinatesToFeatures self x y in
     Canvas.convertFeaturesToCanvasCoordinates self g1 g2) = (x, y) /\
    (let (u, v) := Canvas.convertFeaturesToCanvasCoordinates self f1 f2 in
     Canvas.convertCanvasCoordinatesToFeatures self u v) = (f1, f2).
Proof.
  intros self x y f1 f2 Hw Hh Hx Hy.
  unfold Canvas.convertCanvasCoordinatesToFeatures,
    Canvas.convertFeaturesToCanvasCoordinates. simpl.
  split; f_equal; field; repeat split; try assumption; lra.
Qed.

(** The pixels of the canvas of 200 by 100, taken to features and back in
    doubles. *)
Lemma round_trip_pixels :
  forallb
    (fun x =>
       forallb
         (fun y =>
            let (g1, g2) :=
              Canvas.convertCanvasCoordinatesToFeatures Examples.screen
                (of_Z (Z.of_nat x)) (of_Z (Z.of_nat y)) in
            let (u, v) :=
              Canvas.convertFeaturesToCanvasCoordinates Examples.screen g1 g2 in
            within 0x1p-45%float u (of_Z (Z.of_nat x))
            && within 0x1p-45%float v (of_Z (Z.of_nat y)))
         (seq 0 101))
    (seq 0 201) = true.
Proof. vm_compute. reflexivity. Qed.

(** X18: in exact arithmetic, on a canvas of non-zero width and height
    whose feature bounds differ in both directions, the conversion from
    canvas coordinates to features and the conversion back are inverse of
    each other. The program computes them in doubles, where this holds up
    to rounding only: on the canvas of 200 by 100 with the default bounds,
    every pixel comes back within 2^-45 of where it was, and the pixel
    (0, 1) comes back as (0, 1.0000000000000009). *)
Theorem coordinates_round_trip :
  (forall (self : @Canvas.t R) (x y f1 f2 : R),
      Canvas.width self <> 0 ->
      Canvas.height self <> 0 ->
      Canvas.x1 (Canvas.options self) <> Canvas.x2 (Canvas.options self) ->
      Canvas.y1 (Canvas.options self) <> Canvas.y2 (Canvas.options self) ->
      (let (g1, g2) := Canvas.convertCanvasCoordinatesToFeatures self x y in
       Canvas.convertFeaturesToCanvasCoordinates self g1 g2) = (x, y) /\
      (let (u, v) := Canvas.convertFeaturesToCanvasCoordinates self f1 f2 in
       Canvas.convertCanvasCoordinatesToFeatures self u v) = (f1, f2)) /\
  (forall x y : nat,
      (x <= 200)%nat -> (y <= 100)%nat ->
      let (g1, g2) :=
        Canvas.convertCanvasCoordinatesToFeatures Examples.screen
          (of_Z (Z.of_nat x)) (of_Z (Z.of_nat y)) in
      let (u, v) :=
        Canvas.convertFeaturesToCanvasCoordinates Examples.screen g1 g2 in
      within 0x1p-45%float u (of_Z (Z.of_nat x)) = true /\
      within 0x1p-45%float v (of_Z (Z.of_nat y)) = true) /\
  (let (g1, g2) :=
     Canvas.convertCanvasCoordinatesToFeatures Examples.screen 0%float 1%float in
   Canvas.convertFeaturesToCanvasCoordinates Examples.screen g1 g2)
  = (0%float, 0x1.0000000000004p+0%float).
Proof.
  split; [exact round_trip_exact|]. split; [|vm_compute; reflexivity].
  intros x y Hx Hy.
  pose proof round_trip_pixels as H.
  rewrite forallb_forall in H.
  specialize (H x ltac:(apply in_seq; lia)).
  rewrite forallb_forall in H.
  specialize (H y ltac:(apply in_seq; lia)).
  destruct (Canvas.convertCanvasCoordinatesToFeatures Examples.screen _ _)
    as [g1 g2].
  destruct (Canvas.convertFeaturesToCanvasCoordinates Examples.screen g1 g2)
    as [u v].
  now apply andb_true_iff in H.
Qed.

(** X19: in exact arithmetic, a point of the square from (-1, -1) to (1, 1)
    that [convertBoundaryCoordinatesToFeatures] takes to feature space comes
    back on the canvas at ((bx + 1) / 2 * width, (1 - by) / 2 * height),
    whatever the feature bounds, and the corners (-1, -1) and (1, 1) of the
    square are the features (x1, y1) and (x2, y2). In the doubles of the
    program the corners of the canvas with the default bounds are these
    features exactly, but the formula holds up to rounding only: on the
    canvas of 200 by 100 the point (-1, 0.1) lands at height
    44.99999999999999, not 45. *)
Theorem boundary_coordinates :
  (forall (self : @Canvas.t R) (bx by0 : R),
      Canvas.x1 (Canvas.options self) <> Canvas.x2 (Canvas.options self) ->
      Canvas.y1 (Canvas.options self) <> Canvas.y2 (Canvas.options self) ->
      (let (f1, f2) :=
         Canvas.convertBoundaryCoordinatesToFeatures self bx by0 in
       Canvas.convertFeaturesToCanvasCoordinates self f1 f2)
      = ((bx + 1) / 2 * Canvas.width self,
         (1 - by0) / 2 * Canvas.height self) /\
      Canvas.convertBoundaryCoordinatesToFeatures self (-1) (-1)
      = (Canvas.x1 (Canvas.options self), Canvas.y1 (Canvas.options self)) /\
      Canvas.convertBoundaryCoordinatesToFeatures self 1 1
      = (Canvas.x2 (Canvas.options self), Canvas.y2 (Canvas.options self))) /\
  Canvas.convertBoundaryCoordinatesToFeatures Examples.screen
    (-1)%float (-1)%float = ((-2.5)%float, (-2.5)%float) /\
  Canvas.convertBoundaryCoordinatesToFeatures Examples.screen 1%float 1%float
  = (2.5%float, 2.5%float) /\
  (let (f1, f2) :=
     Canvas.convertBoundaryCoordinatesToFeatures Examples.screen
       (-1)%float 0x1.999999999999ap-4%float in
   Canvas.convertFeaturesToCanvasCoordinates Examples.screen f1 f2)
  = (0%float, 0x1.67fffffffffffp+5%float) /\
  PrimFloat.mul
    (PrimFloat.div (PrimFloat.sub 1 0x1.999999999999ap-4) 2)
    (Canvas.height Examples.screen)
  = 45%float.
Proof.
  split.
  - intros self bx by0 Hx Hy.
    unfold Canvas.convertBoundaryCoordinatesToFeatures,
      Canvas.convertFeaturesToCanvasCoordinates. simpl.
    repeat split; f_equal; field; lra.
  - repeat split; vm_compute; reflexivity.
Qed.

End Coordinates.

(** * Logistic regression *)

Section Logistic.

Local Open Scope R_scope.



End Logistic.

(** * Data that cannot be learned *)

Section NoData.

Context {num : Type} {N : JSNumber num} {L : JSLog num}.

Import DecisionTree.

(** X21: training on no samples at all does not complete, whatever the
    options of the tree: the impurity of no labels is [NaN] or [null], not
    0, there is no label to take the majority of and no sample to read the
    features of, and [train] throws a [TypeError]. *)
Theorem train_no_samples :
  forall (self : DecisionTree.t) (r : rng),
    fst (fst (train self [] [] r)) = Throw TypeError.
Proof.
  intros self r. unfold train. simpl negb. cbv iota.
  simpl nth_error. cbn [resolveNumFeatures].
  set (self1 := with_numFeaturesInt self VNaN).
  cbn [buildTree length].
  assert (Hz : is_zero (calculateImpurity self1 [[]]) = false).
  { unfold calculateImpurity.
    destruct (String.eqb _ "gini"); [reflexivity|].
    destruct (String.eqb _ "entropy"); reflexivity. }
  rewrite Hz.
  destruct ((maxDepth self1 >=? 0)%Z && (0 >=? maxDepth self1)%Z).
  - reflexivity.
  - reflexivity.
Qed.

End NoData.

Section Contradictions.

Local Open Scope R_scope.

Import DecisionTree.

(** X22: over the real numbers and without a maximal depth, training does
    not complete on data in which two samples have the same features and
    different labels: [train] throws. What it throws is a [TypeError] when
    every row has the features that the sampler is asked for. *)
Theorem train_contradictory_samples :
  forall (self : @DecisionTree.t R) X y r (i j : nat),
    (maxDepth self < 0)%Z ->
    length X = length y ->
    (i < length X)%nat ->
    (j < length X)%nat ->
    nth i X [] = nth j X [] ->
    nth i y Undefined <> nth j y Undefined ->
    let count :=
      count_of (Some (resolveNumFeatures (numFeatures self)
                        (nth_error (Arrays.getShape X) 1))) in
    let outcome := fst (fst (train self X y r)) in
    (exists e, outcome = Throw e) /\
    (Forall (fun x => (count <= length x)%nat) X ->
     outcome = Throw TypeError).
Proof.
  intros self X y r i j Hd Hlen Hi Hj Hx Hy count outcome. subst outcome.
  destruct (@train_runs_buildTree _ _ _ self X y r Hlen) as [-> _].
  match goal with
  | |- context [buildTree ?f ?s ?a ?b ?d ?r0] =>
      pose proof (@buildTree_fuel _ _ _ f s a b d r0 ltac:(lia)) as Hf;
      pose proof (@buildTree_throws _ _ _ f s a b d r0) as Ht;
      destruct (buildTree f s a b d r0) as [[root| e |] r'] eqn:Hb
  end; cbn [fst] in Hf, Ht |- *.
  - exfalso. apply Hy.
    assert (M : forall k, (k < length X)%nat ->
                          walk root (nth k X []) = nth k y Undefined)
      by exact (fun k Hk =>
                  @buildTree_memorizes _ (with_numFeaturesInt self _) _ _ _ _ _
                    _ Hd Hlen Hb k Hk).
    rewrite <- (M i Hi), <- (M j Hj). now rewrite Hx.
  - split; [now exists e|]. intros Hall.
    destruct (Ht e eq_refl) as [->|(_ & x & Hin & Hlt)]; [reflexivity|].
    rewrite Forall_forall in Hall. specialize (Hall x Hin).
    cbn [numFeaturesInt with_numFeaturesInt] in Hlt. fold count in Hlt. lia.
  - congruence.
Qed.

End Contradictions.

(** * The further properties at work *)

Section FurtherExamples.

Lemma train_outcomes_witness :
  length Examples.bareX = length Scenario.mixedY /\
  exists e,
    fst (fst (DecisionTree.train Scenario.defaults Examples.bareX
                Scenario.mixedY [])) = Throw e /\
    e <> TypeError.
Proof.
  split; [reflexivity|].
  pose proof (train_outcomes (L := Double.logarithms) Scenario.defaults
                Examples.bareX Scenario.mixedY []) as H.
  cbv zeta in H. destruct H as (_ & _ & H).
  destruct (H eq_refl [] [[]] eq_refl) as (e & He & Hne & _).
  - vm_compute. reflexivity.
  - discriminate.
  - vm_compute. lia.
  - exists e. split; [exact He | exact Hne].
Defined.

Lemma train_height_witness :
  (0 <= DecisionTree.maxDepth Examples.oneLevel)%Z /\
  exists root,
    DecisionTree.tree
      (snd (fst (DecisionTree.train Examples.oneLevel Scenario.X Scenario.y [])))
    = Some root /\
    (Z.of_nat (height root) <= DecisionTree.maxDepth Examples.oneLevel)%Z.
Proof.
  assert (H0 : (0 <= DecisionTree.maxDepth Examples.oneLevel)%Z)
    by (simpl; lia).
  split; [exact H0|].
  apply (@train_height float _ Double.logarithms Examples.oneLevel _
           Scenario.X Scenario.y []
           (snd (DecisionTree.train Examples.oneLevel Scenario.X Scenario.y []))
           H0).
  vm_compute. reflexivity.
Defined.

Lemma predict_training_labels_witness :
  DecisionTree.train Scenario.defaults Scenario.X Scenario.y []
  = (Ok tt, Scenario.model, []) /\
  In (Lab 1) Scenario.y.
Proof.
  assert (H : DecisionTree.train Scenario.defaults Scenario.X Scenario.y []
              = (Ok tt, Scenario.model, [])) by (vm_compute; reflexivity).
  split; [exact H|].
  apply (@predict_training_labels float _ Double.logarithms _ _ _ _ _ _
           [[0.5%float]; [2.5%float]] [Lab 0; Lab 1] H).
  - vm_compute. reflexivity.
  - simpl. auto.
Defined.

Lemma train_unsupported_criterion_witness :
  String.eqb (DecisionTree.criterion Examples.variance) "gini" = false /\
  fst (fst (DecisionTree.train Examples.variance Scenario.X Scenario.y []))
  = Throw TypeError.
Proof.
  split; [reflexivity|].
  pose proof (@train_unsupported_criterion float _ Double.logarithms
                Examples.variance Scenario.X Scenario.y []) as H.
  cbv zeta in H. destruct H as [_ H].
  - reflexivity.
  - reflexivity.
  - simpl. lia.
  - reflexivity.
  - apply H. repeat constructor; vm_compute; lia.
Defined.

Lemma impurity_zero_iff_pure_witness :
  Examples.oneY <> [] /\ (0 <= DecisionTree.gini (num := R) Examples.oneY)%R.
Proof.
  assert (H : Examples.oneY <> []) by discriminate.
  split; [exact H|].
  destruct (impurity_zero_iff_pure H) as (H1 & _). exact H1.
Defined.

Lemma oneY_single : forall l, In l Examples.oneY -> l = Lab 7.
Proof. intros l [<-|[<-|[]]]; reflexivity. Qed.

Lemma train_single_label_witness :
  Examples.oneY <> [] /\
  exists self',
    DecisionTree.train Examples.exactTree Examples.oneX Examples.oneY []
    = (Ok tt, self', []) /\
    DecisionTree.tree self' = Some (DecisionTree.leaf (VNum 0%R) (Lab 7)).
Proof.
  assert (H : Examples.oneY <> []) by discriminate.
  split; [exact H|].
  apply (@train_single_label Examples.exactTree Examples.oneX Examples.oneY []
           (Lab 7)).
  - left. reflexivity.
  - reflexivity.
  - exact H.
  - exact oneY_single.
Defined.

(** A training over the real numbers that splits: the samples 0 and 1 of
    one feature, with different labels. *)
Lemma exact_count_one :
  DecisionTree.count_of
    (Some (DecisionTree.resolveNumFeatures (DecisionTree.NFfraction 1%R)
             (Some 1%nat))) = 1%nat.
Proof.
  simpl. rewrite Rmult_1_r.
  rewrite (floor_IZR 1). rewrite Rmin_left by lra. rewrite Rmax_left by lra.
  unfold Exact.count.
  assert (H : Int_part 1 = 1%Z).
  { apply eq_IZR. change (Exact.floor (IZR 1) = IZR 1). apply floor_IZR. }
  rewrite H. reflexivity.
Qed.

Lemma gini_two : DecisionTree.gini (num := R) Examples.twoY = (1 / 2)%R.
Proof.
  unfold DecisionTree.gini, DecisionTree.frac_of, DecisionTree.len,
    Examples.twoY.
  simpl. field.
Qed.

Lemma values_two :
  DecisionTree.sampleValues (num := R) (Arrays.columns Examples.oneX) 0
  = [0%R; 1%R].
Proof.
  unfold DecisionTree.sampleValues.
  cbn [Arrays.columns Arrays.getShape Examples.oneX length nth seq map
       Arrays.column flat_map nth_error app].
  unfold Arrays.uniqueNumbers, setValue.
  cbn [map add of_Z Exact.number]. rewrite !Rplus_0_r.
  cbn [Arrays.unique filter].
  unfold sameValueZero. cbn [eqb Exact.number].
  rewrite (@same_false 1%R 0%R) by lra.
  rewrite (proj2 (same_true 1%R 1%R) eq_refl).
  cbn [negb orb andb filter Arrays.sort fold_right Arrays.insert].
  unfold DecisionTree.ascending. cbn [ltb Exact.number].
  rewrite (@less_false 1%R 0%R) by lra.
  reflexivity.
Qed.

Lemma thresholds_two :
  DecisionTree.splitValues (num := R) (Arrays.columns Examples.oneX) 0
  = [((1 + 0) * / 2)%R].
Proof.
  unfold DecisionTree.splitValues. rewrite values_two. reflexivity.
Qed.

Lemma split_two :
  DecisionTree.splitSamples (num := R) Examples.oneX Examples.twoY 0
                            ((1 + 0) * / 2)%R
  = DecisionTree.groups Examples.middle.
Proof.
  unfold DecisionTree.splitSamples, Examples.oneX.
  cbn [DecisionTree.splitSamples_from].
  unfold DecisionTree.lt_at. cbn [nth_error ltb Exact.number].
  rewrite (proj2 (less_true 0%R ((1 + 0) * / 2)%R)) by lra.
  rewrite (@less_false 1%R ((1 + 0) * / 2)%R) by lra.
  reflexivity.
Qed.

Lemma findSplit_two :
  forall (self : @DecisionTree.t R) (b : R),
    DecisionTree.criterion self = "gini"%string ->
    DecisionTree.count_of (DecisionTree.numFeaturesInt self) = 1%nat ->
    DecisionTree.findSplit self Examples.oneX Examples.twoY (VNum b) []
    = (Ok (Some Examples.middle), []).
Proof.
  intros self b Hc Hn. unfold DecisionTree.findSplit.
  change (Arrays.transpose Examples.oneX)
    with (Ok (Arrays.columns Examples.oneX)).
  cbv iota. rewrite Hn.
  change (Random.sample _ 1 false []) with (@Ok (list nat) [0%nat], @nil nat).
  cbv iota. cbn [fold_left]. rewrite thresholds_two. cbn [fold_left].
  unfold DecisionTree.considerSplit. rewrite split_two.
  unfold DecisionTree.calculateImpurity. rewrite Hc.
  cbn [String.eqb Ascii.eqb Bool.eqb].
  cbn [DecisionTree.groups Examples.middle DecisionTree.labels
       DecisionTree.features fst snd length Nat.ltb Nat.leb andb].
  unfold DecisionTree.calculateWeightedImpurity.
  cbn [fold_left length Z.of_nat Z.add Z.eqb Pos.of_succ_nat Pos.succ Pos.add
       Pos.eqb map combine].
  reflexivity.
Qed.

Lemma exact_two_run :
  exists root,
    DecisionTree.train Examples.exactTree Examples.oneX Examples.twoY []
    = (Ok tt,
       DecisionTree.with_tree
         (DecisionTree.with_numFeaturesInt Examples.exactTree
            (DecisionTree.resolveNumFeatures (DecisionTree.NFfraction 1%R)
               (Some 1%nat)))
         root,
       []).
Proof.
  unfold DecisionTree.train. simpl negb. cbv iota.
  change (nth_error (Arrays.getShape Examples.oneX) 1) with (Some 1%nat).
  change (DecisionTree.numFeatures Examples.exactTree)
    with (DecisionTree.NFfraction 1%R).
  set (self1 := DecisionTree.with_numFeaturesInt Examples.exactTree _).
  assert (Hc : DecisionTree.criterion self1 = "gini"%string) by reflexivity.
  assert (Hi : DecisionTree.calculateImpurity self1 [Examples.twoY]
               = VNum (1 / 2)%R).
  { unfold DecisionTree.calculateImpurity. rewrite Hc.
    change (DecisionTree.calculateWeightedImpurity (num := R) [Examples.twoY]
              DecisionTree.gini = VNum (1 / 2)%R).
    rewrite weighted_single by discriminate. now rewrite gini_two. }
  assert (Hp : forall a, DecisionTree.calculateImpurity self1 [[a]]
                         = VNum 0%R).
  { intros a. apply pure_is_zero; [now left | discriminate |].
    intros x [<-|[]]. reflexivity. }
  cbn [DecisionTree.buildTree length Examples.oneX].
  rewrite Hi. cbn [DecisionTree.is_zero eqb Exact.number of_Z].
  rewrite (@same_false (1 / 2)%R 0%R) by lra.
  cbn [DecisionTree.maxDepth self1 DecisionTree.with_numFeaturesInt
       Examples.exactTree DecisionTree.new Z.geb Z.compare andb].
  rewrite (@findSplit_two self1 (1 / 2)%R Hc exact_count_one).
  cbn [DecisionTree.groups Examples.middle DecisionTree.features
       DecisionTree.labels fst snd].
  rewrite !Hp. cbn [DecisionTree.is_zero eqb Exact.number of_Z].
  rewrite (proj2 (same_true 0%R 0%R) eq_refl).
  eexists. reflexivity.
Qed.

Lemma train_memorizes_witness :
  (DecisionTree.maxDepth Examples.exactTree < 0)%Z /\
  DecisionTree.predict
    (snd (fst (DecisionTree.train Examples.exactTree Examples.oneX
                 Examples.twoY [])))
    Examples.oneX
  = Ok Examples.twoY.
Proof.
  assert (H0 : (DecisionTree.maxDepth Examples.exactTree < 0)%Z)
    by (simpl; lia).
  split; [exact H0|].
  destruct exact_two_run as [root Hrun].
  rewrite Hrun. cbn [fst snd].
  apply (@train_memorizes Examples.exactTree _ Examples.oneX Examples.twoY
           [] [] H0 Hrun).
Defined.

Lemma train_depth_zero_witness :
  DecisionTree.maxDepth Examples.flatTree = 0%Z /\
  exists self' impurity p,
    DecisionTree.train Examples.flatTree Examples.sameX
      [Lab 1; Lab 2] [] = (Ok tt, self', []) /\
    DecisionTree.tree self' = Some (DecisionTree.leaf impurity p) /\
    most_frequent p [Lab 1; Lab 2].
Proof.
  split; [reflexivity|].
  apply (@train_depth_zero Examples.flatTree Examples.sameX [Lab 1; Lab 2] []).
  - reflexivity.
  - reflexivity.
  - discriminate.
Defined.

Lemma forest_train_trees_witness :
  fst (fst (RandomForest.train Examples.forest Scenario.X Scenario.y
              Examples.draws)) = Ok tt /\
  exists ts,
    RandomForest.trees
      (snd (fst (RandomForest.train Examples.forest Scenario.X Scenario.y
                   Examples.draws))) = Some ts /\
    length ts = 3%nat.
Proof.
  split; [vm_compute; reflexivity|].
  destruct (@forest_train_trees float _ Double.logarithms Examples.forest
              (snd (fst (RandomForest.train Examples.forest Scenario.X
                           Scenario.y Examples.draws)))
              Scenario.X Scenario.y Examples.draws
              (snd (RandomForest.train Examples.forest Scenario.X Scenario.y
                      Examples.draws)))
    as (ts & Hts & Hlen & _).
  - vm_compute. reflexivity.
  - exists ts. split; [exact Hts | exact Hlen].
Defined.

Lemma forest_vote_witness :
  fst (fst (RandomForest.train Examples.forest Scenario.X Scenario.y
              Examples.draws)) = Ok tt /\
  exists ps,
    RandomForest.predictSample
      (snd (fst (RandomForest.train Examples.forest Scenario.X Scenario.y
                   Examples.draws))) [2.5%float]
    = Ok (RandomForest.vote ps) /\
    most_frequent (RandomForest.vote ps) ps.
Proof.
  split; [vm_compute; reflexivity|].
  destruct (@forest_vote float _ Double.logarithms Examples.forest
              (snd (fst (RandomForest.train Examples.forest Scenario.X
                           Scenario.y Examples.draws)))
              Scenario.X Scenario.y Examples.draws
              (snd (RandomForest.train Examples.forest Scenario.X Scenario.y
                      Examples.draws))
              [2.5%float])
    as (ts & ps & _ & _ & _ & Hp & _ & Hm).
  - vm_compute. reflexivity.
  - exists ps. split; [exact Hp|]. apply Hm. simpl. lia.
Defined.

Lemma forest_training_labels_witness :
  (0 < RandomForest.numTrees Examples.forest)%Z /\
  forall ps,
    RandomForest.predict
      (snd (fst (RandomForest.train Examples.forest Scenario.X Scenario.y
                   Examples.draws))) [[2.5%float]] = Ok ps ->
    forall p, In p ps -> In p Scenario.y.
Proof.
  assert (H0 : (0 < RandomForest.numTrees Examples.forest)%Z)
    by (simpl; lia).
  split; [exact H0|]. intros ps.
  apply (@forest_training_labels float _ Double.logarithms Examples.forest
           (snd (fst (RandomForest.train Examples.forest Scenario.X
                        Scenario.y Examples.draws)))
           Scenario.X Scenario.y Examples.draws
           (snd (RandomForest.train Examples.forest Scenario.X Scenario.y
                   Examples.draws))
           [[2.5%float]] ps H0).
  vm_compute. reflexivity.
Defined.

Lemma train_again_witness :
  DecisionTree.criterion Scenario.defaults
  = DecisionTree.criterion Scenario.model /\
  snd (fst (DecisionTree.train Scenario.defaults Scenario.X Scenario.y []))
  = snd (fst (DecisionTree.train Scenario.model Scenario.X Scenario.y [])).
Proof.
  split; [reflexivity|].
  destruct (@train_again float _ Double.logarithms Scenario.defaults
              Scenario.model Scenario.X Scenario.y [] eq_refl eq_refl eq_refl)
    as (_ & _ & H & _).
  apply H. vm_compute. reflexivity.
Defined.

Lemma accuracy_count_witness :
  length Scenario.y = length [Lab 0; Lab 1; Lab 1; Lab 1] /\
  Metrics.accuracy (num := float) Scenario.y [Lab 0; Lab 1; Lab 1; Lab 1] false
  = Ok (VNum 3%float).
Proof.
  split; [reflexivity|].
  destruct (accuracy_count (num := float) Scenario.y
              [Lab 0; Lab 1; Lab 1; Lab 1]) as [_ H].
  destruct (H eq_refl) as [H1 _]. rewrite H1. vm_compute. reflexivity.
Defined.

Lemma accuracy_normalized_witness :
  length Scenario.y = length [Lab 0; Lab 1; Lab 1; Lab 1] /\
  exists a : R,
    Metrics.accuracy (num := R) Scenario.y [Lab 0; Lab 1; Lab 1; Lab 1] true
    = Ok (VNum a) /\ (0 <= a <= 1)%R.
Proof.
  split; [reflexivity|].
  destruct (@accuracy_normalized Scenario.y [Lab 0; Lab 1; Lab 1; Lab 1]
              eq_refl) as [_ H].
  destruct (H ltac:(discriminate)) as (a & Ha & _ & Hr & _).
  exists a. split; [exact Ha | exact Hr].
Defined.

Lemma listeners_emit_witness :
  "click"%string <> "move"%string /\
  Canvas.emit (Canvas.addListener Examples.canvas "move" 4%nat) "click" tt
  = Canvas.emit Examples.canvas "click" tt.
Proof.
  assert (H : "click"%string <> "move"%string) by discriminate.
  split; [exact H|].
  destruct (listeners_emit Examples.canvas "move" 4%nat tt)
    as (_ & _ & _ & Hother).
  destruct (Hother "click"%string H) as [Ha _]. exact Ha.
Defined.

Lemma coordinates_round_trip_witness :
  Canvas.width Examples.canvas <> 0%R /\
  (let (g1, g2) :=
     Canvas.convertCanvasCoordinatesToFeatures Examples.canvas 30%R 40%R in
   Canvas.convertFeaturesToCanvasCoordinates Examples.canvas g1 g2)
  = (30%R, 40%R).
Proof.
  assert (Hw : Canvas.width Examples.canvas <> 0%R) by (simpl; lra).
  split; [exact Hw|].
  destruct coordinates_round_trip as [Hexact _].
  destruct (Hexact Examples.canvas 30%R 40%R 0%R 0%R Hw)
    as [H _]; simpl; try lra.
  exact H.
Defined.

Lemma boundary_coordinates_witness :
  Canvas.x1 (Canvas.options Examples.canvas)
  <> Canvas.x2 (Canvas.options Examples.canvas) /\
  Canvas.convertBoundaryCoordinatesToFeatures Examples.canvas 1%R 1%R
  = ((5 / 2)%R, (5 / 2)%R).
Proof.
  assert (Hx : Canvas.x1 (Canvas.options Examples.canvas)
               <> Canvas.x2 (Canvas.options Examples.canvas))
    by (simpl; lra).
  split; [exact Hx|].
  destruct boundary_coordinates as [Hexact _].
  destruct (Hexact Examples.canvas 0%R 0%R Hx) as (_ & _ & H);
    [simpl; lra|].
  exact H.
Defined.


Lemma train_contradictory_samples_witness :
  nth 0 Examples.sameX [] = nth 1 Examples.sameX [] /\
  fst (fst (DecisionTree.train Examples.exactTree Examples.sameX
              Examples.twoY [])) = Throw TypeError.
Proof.
  split; [reflexivity|].
  pose proof (@train_contradictory_samples Examples.exactTree Examples.sameX
                Examples.twoY [] 0%nat 1%nat) as H.
  cbv zeta in H. destruct H as [_ H].
  - simpl. lia.
  - reflexivity.
  - simpl. lia.
  - simpl. lia.
  - reflexivity.
  - discriminate.
  - apply H.
    change (nth_error (Arrays.getShape Examples.sameX) 1) with (Some 1%nat).
    change (DecisionTree.numFeatures Examples.exactTree)
      with (DecisionTree.NFfraction 1%R).
    rewrite exact_count_one. repeat constructor.
Defined.

End FurtherExamples.
